(** * mcpo: lifecycle of the gateway (src/mcpo/main.py)

    A shallow embedding of [lifespan], [GracefulShutdown] and [run]:
    the establishment pass over the mounted sub-applications, the
    teardown done by the [AsyncExitStack], the shutdown signal handler
    and the run loop that races the serving task against the shutdown
    event.

    Python code runs in a state-and-exception monad.  What the code
    logs and which external coroutines it awaits (transport, session,
    endpoint registration) is appended to a trace, oldest record
    first. *)

From Stdlib Require Import Ascii.
From stdpp Require Import base list strings gmap.

Open Scope string_scope.
Open Scope list_scope.

(** ** Exceptions *)

(** The exceptions that occur in the module.  [CancelledError],
    [KeyboardInterrupt] and [SystemExit] derive from [BaseException]
    only: [except Exception] lets them through. *)
Inductive exn :=
  | ValueError (msg : string)
  | RuntimeError (msg : string)
  | TypeError (msg : string)
  | IndexError (msg : string)
  | OSError (msg : string)
  | McpError (msg : string)
  | CancelledError
  | KeyboardInterrupt
  | SystemExit.

#[export] Instance exn_eq_dec : EqDecision exn.
Proof. solve_decision. Defined.

Definition is_Exception (e : exn) : bool :=
  match e with
  | CancelledError | KeyboardInterrupt | SystemExit => false
  | _ => true
  end.

(** [str(e)] *)
Definition exn_str (e : exn) : string :=
  match e with
  | ValueError m | RuntimeError m | TypeError m
  | IndexError m | OSError m | McpError m => m
  | CancelledError | KeyboardInterrupt | SystemExit => ""
  end.

(** ** Trace: log records and awaited external calls *)

Inductive level := INFO | WARNING | ERROR.

Inductive signum := SIGINT | SIGTERM.

#[export] Instance level_eq_dec : EqDecision level.
Proof. solve_decision. Defined.

#[export] Instance signum_eq_dec : EqDecision signum.
Proof. solve_decision. Defined.

(** One constructor per logging call of the module; [render] gives the
    text of the record. *)
Inductive message :=
  | MInitiating (server_name : string)
  | MConnected (server_name : string)
  | MNotConnected (server_name : string)
  | MFailedEstablish (server_name : string)
  | MSummaryHeader
  | MSuccessHeader
  | MFailedHeader
  | MItem (name : string)
  | MSummaryFooter
  | MNoServers
  | MFailedConnect (title : string) (e : exn)
  | MReceived (sig : signum)
  | MConfiguringSse (url : string)
  | MConfiguringStreamable (url : string)
  | MConfiguringStdio (command : string)
  | MLoadingConfig (config_path : string)
  | MNoServersInConfig (config_path : string)
  | MConfiguringServers
  | MMustProvide
  | MUvicornStarting
  | MServerExited
  | MInitiatingShutdown
  | MExecutionError (e : exn)
  | MShutdownComplete.

#[export] Instance message_eq_dec : EqDecision message.
Proof. solve_decision. Defined.

Definition signal_name (s : signum) : string :=
  match s with SIGINT => "SIGINT" | SIGTERM => "SIGTERM" end.

Definition newline : string := String (Ascii.ascii_of_nat 10) EmptyString.

Definition render (m : message) : string :=
  match m with
  | MInitiating n => "Initiating connection for server: '" +:+ n +:+ "'..."
  | MConnected n => "Successfully connected to '" +:+ n +:+ "'."
  | MNotConnected n =>
      "Connection attempt for '" +:+ n
        +:+ "' finished, but status is not 'connected'."
  | MFailedEstablish n =>
      "Failed to establish connection for server: '" +:+ n +:+ "'."
  | MSummaryHeader => newline +:+ "--- Server Startup Summary ---"
  | MSuccessHeader => "Successfully connected to:"
  | MFailedHeader => "Failed to connect to:"
  | MItem n => "  - " +:+ n
  | MSummaryFooter => "--------------------------" +:+ newline
  | MNoServers => "No MCP servers could be reached."
  | MFailedConnect t e =>
      "Failed to connect to MCP server '" +:+ t +:+ "': " +:+ exn_str e
  | MReceived s =>
      newline +:+ "Received " +:+ signal_name s
        +:+ ", initiating graceful shutdown..."
  | MConfiguringSse u =>
      "Configuring for a single SSE MCP Server with URL " +:+ u
  | MConfiguringStreamable u =>
      "Configuring for a single StreamableHTTP MCP Server with URL " +:+ u
  | MConfiguringStdio c =>
      "Configuring for a single Stdio MCP Server with command: " +:+ c
  | MLoadingConfig p => "Loading MCP server configurations from: " +:+ p
  | MNoServersInConfig p => "No 'mcpServers' found in config file: " +:+ p
  | MConfiguringServers => "Configuring MCP Servers:"
  | MUvicornStarting => "Uvicorn server starting..."
  | MMustProvide => "MCPO server_command or config_path must be provided."
  | MServerExited => "Server task exited unexpectedly. Initiating shutdown."
  | MInitiatingShutdown => "Initiating server shutdown..."
  | MExecutionError e => "Error during server execution: " +:+ exn_str e
  | MShutdownComplete => "Server shutdown complete"
  end.

(** The three transports of [lifespan], with the arguments the code
    passes to them. *)
Inductive client_context :=
  | stdio_client (command : string) (args : list string)
  | sse_client (url : string) (sse_read_timeout : nat)
  | streamablehttp_client (url : string).

#[export] Instance client_context_eq_dec : EqDecision client_context.
Proof. solve_decision. Defined.

(** The awaits that leave the module. *)
Inductive call :=
  | TransportEnter
  | SessionEnter
  | Initialize
  | RegisterTools
  | RegisterResourceTemplates
  | RegisterResources
  | SessionExit
  | TransportExit.

#[export] Instance call_eq_dec : EqDecision call.
Proof. solve_decision. Defined.

(** Handles of asyncio tasks. *)
Definition task : Type := nat.

Inductive event :=
  | Log (lv : level) (m : message)
  | Await (c : call) (on : client_context)
  | CreateTask (t : task)
  | Cancel (t : task)
  | SetShouldExit
  | Gather (ts : list task).

#[export] Instance event_eq_dec : EqDecision event.
Proof. unfold task. solve_decision. Defined.

(** ** The monad *)

Inductive outcome (A : Type) :=
  | Ok (a : A)
  | Raise (e : exn).
Arguments Ok {A} a.
Arguments Raise {A} e.

(** A computation over a state [S]; the state survives a raise. *)
Definition M (S A : Type) : Type := S → outcome A * S.

Definition ret {S A} (a : A) : M S A := λ s, (Ok a, s).

Definition bind {S A B} (c : M S A) (k : A → M S B) : M S B :=
  λ s, match c s with
       | (Ok a, s') => k a s'
       | (Raise e, s') => (Raise e, s')
       end.

Definition raise {S A} (e : exn) : M S A := λ s, (Raise e, s).

Definition get {S} : M S S := λ s, (Ok s, s).

Definition lift {S A} (r : outcome A) : M S A := λ s, (r, s).

Definition modify {S} (f : S → S) : M S unit := λ s, (Ok tt, f s).

(** [try: c  except BaseException as e: h e] *)
Definition try_except_base {S A} (c : M S A) (h : exn → M S A) : M S A :=
  λ s, match c s with
       | (Ok a, s') => (Ok a, s')
       | (Raise e, s') => h e s'
       end.

(** [try: c  except Exception as e: h e] *)
Definition try_except {S A} (c : M S A) (h : exn → M S A) : M S A :=
  try_except_base c (λ e, if is_Exception e then h e else raise e).

#[export] Instance M_ret {S} : MRet (M S) := λ A, @ret S A.
#[export] Instance M_bind {S} : MBind (M S) := λ A B k c, @bind S A B c k.

(** ** Applications *)

(** Result of [session.initialize()], as far as
    [create_dynamic_endpoints] reads it. *)
Record server_info := {
  si_name : string;
  si_version : string;
}.

Record initialize_result := {
  serverInfo : option server_info;
  instructions : option string;
}.

(** The outside world of one backend: for every await that leaves the
    module, whether it returns ([None], or [Ok r]) or raises. *)
Record backend := {
  transport_enter : option exn;
  session_enter : option exn;
  initialize : outcome initialize_result;
  register_tools : option exn;
  register_resource_templates : option exn;
  register_resources : option exn;
  session_exit : option exn;
  transport_exit : option exn;
}.

(** [app.state.args] is a list, or a bare URL in single-server mode. *)
Inductive args_attr :=
  | ArgsList (l : list string)
  | ArgsStr (s : string).

(** The attributes of [app.state] that [lifespan] reads or writes.
    [None] stands for an attribute that is not set (or is [None]);
    for [connection_timeout] the outer [None] is the attribute not
    set and [Some None] the value [None]. *)
Record app_state := {
  server_type : option string;
  command : option string;
  args : option args_attr;
  connection_timeout : option (option nat);
  path_prefix : option string;
  is_connected : option bool;
  has_session : bool;
}.

(** A [FastAPI] application, with the backend its transport reaches. *)
Record fastapi := {
  title : string;
  description : string;
  version : string;
  state : app_state;
  peer : backend;
}.

Definition set_is_connected (b : bool) (a : fastapi) : fastapi :=
  {| title := title a; description := description a; version := version a;
     state := {| server_type := server_type (state a);
                 command := command (state a);
                 args := args (state a);
                 connection_timeout := connection_timeout (state a);
                 path_prefix := path_prefix (state a);
                 is_connected := Some b;
                 has_session := has_session (state a) |};
     peer := peer a |}.

Definition set_session (a : fastapi) : fastapi :=
  {| title := title a; description := description a; version := version a;
     state := {| server_type := server_type (state a);
                 command := command (state a);
                 args := args (state a);
                 connection_timeout := connection_timeout (state a);
                 path_prefix := path_prefix (state a);
                 is_connected := is_connected (state a);
                 has_session := true |};
     peer := peer a |}.

Definition set_title (t : string) (a : fastapi) : fastapi :=
  {| title := t; description := description a; version := version a;
     state := state a; peer := peer a |}.

Definition set_description (d : string) (a : fastapi) : fastapi :=
  {| title := title a; description := d; version := version a;
     state := state a; peer := peer a |}.

Definition set_version (v : string) (a : fastapi) : fastapi :=
  {| title := title a; description := description a; version := v;
     state := state a; peer := peer a |}.

(** Truth value of a string, and of an optional string. *)
Definition truthy (s : string) : bool :=
  match s with EmptyString => false | _ => true end.

Definition truthy_opt (s : option string) : bool :=
  match s with Some s => truthy s | None => false end.

(** [x or d] on strings *)
Definition str_or (x d : string) : string := if truthy x then x else d.

(** The locals that [lifespan] reads from [app.state] when it is
    called, lines 79-86. *)
Record locals := {
  l_server_type : string;
  l_command : option string;
  l_args : list string;
  l_connection_timeout : option nat;
  l_path_prefix : string;
}.

(** Line 82: [args if isinstance(args, list) else [args]], after the
    default [[]] of line 81. *)
Definition args_list (st : app_state) : list string :=
  match args st with
  | None => []
  | Some (ArgsList l) => l
  | Some (ArgsStr s) => [s]
  end.

Definition read_locals (st : app_state) : locals :=
  {| l_server_type := default "stdio" (server_type st);
     l_command := command st;
     l_args := args_list st;
     l_connection_timeout := default (Some 10) (connection_timeout st);
     l_path_prefix := default "/" (path_prefix st) |}.

Definition is_stream_type (t : string) : bool :=
  bool_decide (t ∈ ["sse"; "streamablehttp"; "streamable_http"]).

(** Lines 91-93. *)
Definition is_main_app (l : locals) : bool :=
  negb (truthy_opt (l_command l))
  && negb (is_stream_type (l_server_type l)
           && match l_args l with [] => false | _ => true end).

(** [getattr(sub_app.state, "is_connected", False)] *)
Definition get_is_connected (a : fastapi) : bool :=
  default false (is_connected (state a)).

(** ** Frames *)

(** Where a [lifespan] generator is suspended. *)
Inductive point :=
  | MainYield
  | SubYield (client : client_context).

(** An exit callback of the [AsyncExitStack]: [__aexit__] of an entered
    context, given the exception in flight; answers whether it
    swallowed it. *)
Definition callback : Type := option exn → M (list event) bool.

(** The frame of one [lifespan] generator: the application it was
    called on, the trace, and the locals of the main branch. *)
Record frame := {
  app : fastapi;
  trace : list event;
  successful_servers : list string;
  failed_servers : list string;
  stack : list callback;
}.

Definition new_frame (a : fastapi) (t : list event) : frame :=
  {| app := a; trace := t; successful_servers := [];
     failed_servers := []; stack := [] |}.

Definition with_app (g : fastapi → fastapi) (f : frame) : frame :=
  {| app := g (app f); trace := trace f;
     successful_servers := successful_servers f;
     failed_servers := failed_servers f; stack := stack f |}.

Definition with_trace (t : list event) (f : frame) : frame :=
  {| app := app f; trace := t;
     successful_servers := successful_servers f;
     failed_servers := failed_servers f; stack := stack f |}.

Definition append_successful (n : string) (f : frame) : frame :=
  {| app := app f; trace := trace f;
     successful_servers := successful_servers f ++ [n];
     failed_servers := failed_servers f; stack := stack f |}.

Definition append_failed (n : string) (f : frame) : frame :=
  {| app := app f; trace := trace f;
     successful_servers := successful_servers f;
     failed_servers := failed_servers f ++ [n]; stack := stack f |}.

(** The stack is kept with the callback pushed last at its head. *)
Definition push (cb : callback) (f : frame) : frame :=
  {| app := app f; trace := trace f;
     successful_servers := successful_servers f;
     failed_servers := failed_servers f; stack := cb :: stack f |}.

Definition clear_stack (f : frame) : frame :=
  {| app := app f; trace := trace f;
     successful_servers := successful_servers f;
     failed_servers := failed_servers f; stack := [] |}.

Definition emit (e : event) : M frame unit :=
  modify (λ f, with_trace (trace f ++ [e]) f).

Definition log (lv : level) (m : message) : M frame unit := emit (Log lv m).

(** An await on the backend: recorded, then it returns or raises. *)
Definition await (c : call) (on : client_context) (r : option exn)
  : M frame unit :=
  emit (Await c on) ;;
  match r with Some e => raise e | None => mret tt end.

(** Run a computation of the frame level on the trace alone. *)
Definition on_trace {A} (c : M (list event) A) : M frame A :=
  λ f, let '(r, t) := c (trace f) in (r, with_trace t f).

(** Run a generator frame [f] against the current trace; the frame
    comes back with the result. *)
Definition in_frame {A} (f : frame) (c : M frame A)
  : M (list event) (A * frame) :=
  λ t, match c (with_trace t f) with
       | (Ok a, f') => (Ok (a, f'), trace f')
       | (Raise e, f') => (Raise e, trace f')
       end.

(** ** [lifespan] *)

Section lifespan.

(** [urllib.parse.urljoin] *)
Variable urljoin : string → string → string.

(** The exception thrown into a generator at its [yield], if any. *)
Definition thrown (exc : option exn) : M frame unit :=
  match exc with Some e => raise e | None => mret tt end.

(** [async with cm: body], the part that runs when [body] raises:
    [cm.__aexit__] is awaited and, as the contexts of this module do
    not swallow, the exception goes on (or the one of [__aexit__]). *)
Definition on_raise {A} (exit_ : M frame unit) (body : M frame A)
  : M frame A :=
  try_except_base body (λ e, exit_ ;; raise e).

(** [async with cm: body] from [body] to the end of the statement. *)
Definition leave_with (exit_ : M frame unit) (body : M frame unit)
  : M frame unit :=
  on_raise exit_ body ;; exit_.

(** Lines 53-75. *)
Definition create_dynamic_endpoints (on : client_context) : M frame unit :=
  f ← get;
  if negb (has_session (state (app f))) then
    raise (ValueError "Session is not initialized in the app state.")
  else
    emit (Await Initialize on) ;;
    result ← lift (initialize (peer (app f)));
    match serverInfo result with
    | Some si =>
        modify (with_app (λ a, set_title (str_or (si_name si) (title a)) a)) ;;
        modify (with_app (λ a,
          set_description
            (if truthy (si_name si) then si_name si +:+ " MCP Server"
             else description a) a)) ;;
        modify (with_app (λ a,
          set_version (str_or (si_version si) (version a)) a))
    | None => mret tt
    end ;;
    (if truthy_opt (instructions result) then
       modify (with_app (set_description (default "" (instructions result))))
     else mret tt) ;;
    await RegisterTools on (register_tools (peer (app f))) ;;
    await RegisterResourceTemplates on
      (register_resource_templates (peer (app f))) ;;
    await RegisterResources on (register_resources (peer (app f))).

(** [connection_timeout or 900] *)
Definition sse_read_timeout_of (l : locals) : nat :=
  match l_connection_timeout l with
  | Some (S n) => S n
  | _ => 900
  end.

(** Lines 151-169: the transport for the configured server type. *)
Definition select_client (l : locals) : outcome client_context :=
  let server_type := l_server_type l in
  if bool_decide (server_type = "stdio") then
    match l_command l with
    | Some c => Ok (stdio_client c (l_args l))
    | None => Raise (ValueError "1 validation error for StdioServerParameters")
    end
  else if bool_decide (server_type = "sse") then
    match l_args l with
    | url :: _ => Ok (sse_client url (sse_read_timeout_of l))
    | [] => Raise (IndexError "list index out of range")
    end
  else if bool_decide (server_type = "streamablehttp")
          || bool_decide (server_type = "streamable_http") then
    match l_args l with
    | url :: _ => Ok (streamablehttp_client url)
    | [] => Raise (IndexError "list index out of range")
    end
  else Raise (ValueError ("Unsupported server type: " +:+ server_type)).

(** Lines 177-180, the handler of the sub-application branch. *)
Definition connection_failed (e : exn) : M frame unit :=
  f ← get;
  log ERROR (MFailedConnect (title (app f)) e) ;;
  modify (with_app (set_is_connected false)).

(** Lines 149-176: the sub-application branch up to its [yield].
    [Some p]: the generator is suspended at [p]; [None]: it returned. *)
Definition sub_start (l : locals) : M frame (option point) :=
  modify (with_app (set_is_connected false)) ;;
  try_except
    (f ← get;
     client ← lift (select_client l);
     await TransportEnter client (transport_enter (peer (app f))) ;;
     on_raise (await TransportExit client (transport_exit (peer (app f))))
       (await SessionEnter client (session_enter (peer (app f))) ;;
        on_raise (await SessionExit client (session_exit (peer (app f))))
          (modify (with_app set_session) ;;
           create_dynamic_endpoints client ;;
           modify (with_app (set_is_connected true)))) ;;
     mret (Some (SubYield client)))
    (λ e, connection_failed e ;; mret None).

(** Lines 176-180: the sub-application branch from its [yield] on;
    [exc] is what the context manager throws in. *)
Definition sub_resume (client : client_context) (exc : option exn)
  : M frame unit :=
  try_except
    (f ← get;
     leave_with (await TransportExit client (transport_exit (peer (app f))))
       (leave_with (await SessionExit client (session_exit (peer (app f))))
          (thrown exc)))
    connection_failed.

(** An entered-or-not [lifespan] context of a mounted application:
    its [__aenter__], giving the application as it is afterwards and
    the [__aexit__] to push. *)
Definition context : Type := M (list event) (fastapi * callback).

(** [AsyncExitStack.enter_async_context]: the exit is pushed only
    when [__aenter__] has returned. *)
Definition enter_async_context (cm : context) : M frame fastapi :=
  r ← on_trace cm;
  modify (push r.2) ;;
  mret r.1.

(** Lines 107-124: one turn of the loop. *)
Definition attempt (sub : fastapi * context) : M frame unit :=
  let server_name := title sub.1 in
  log INFO (MInitiating server_name) ;;
  try_except
    (sub_app ← enter_async_context sub.2;
     if get_is_connected sub_app then
       log INFO (MConnected server_name) ;;
       modify (append_successful server_name)
     else
       log WARNING (MNotConnected server_name) ;;
       modify (append_failed server_name))
    (λ _, log ERROR (MFailedEstablish server_name) ;;
          modify (append_failed server_name)).

(** Lines 106-124. *)
Fixpoint establish (sub_lifespans : list (fastapi * context))
  : M frame unit :=
  match sub_lifespans with
  | [] => mret tt
  | sub :: rest => attempt sub ;; establish rest
  end.

Fixpoint for_each {A} (l : list A) (body : A → M frame unit)
  : M frame unit :=
  match l with
  | [] => mret tt
  | x :: rest => body x ;; for_each rest body
  end.

Definition tools_header : string :=
  newline +:+ newline +:+ "- **available tools**：".

Definition tool_link (prefix name : string) : string :=
  newline +:+ "    - [" +:+ name +:+ "]("
    +:+ urljoin prefix (name +:+ "/docs") +:+ ")".

Definition nonempty {A} (l : list A) : bool :=
  match l with [] => false | _ => true end.

(** Lines 126-142. *)
Definition summary (l : locals) : M frame unit :=
  log INFO MSummaryHeader ;;
  f ← get;
  let prefix := l_path_prefix l in
  (if nonempty (successful_servers f) then
     log INFO MSuccessHeader ;;
     for_each (successful_servers f) (λ name, log INFO (MItem name)) ;;
     modify (with_app (λ a,
       set_description (description a +:+ tools_header) a)) ;;
     for_each (successful_servers f) (λ name,
       modify (with_app (λ a,
         set_description (description a +:+ tool_link prefix name) a)))
   else mret tt) ;;
  (if nonempty (failed_servers f) then
     log WARNING MFailedHeader ;;
     for_each (failed_servers f) (λ name, log WARNING (MItem name))
   else mret tt) ;;
  log INFO MSummaryFooter ;;
  (if nonempty (successful_servers f) then mret tt
   else log ERROR MNoServers).

(** [AsyncExitStack.__aexit__]: the callbacks are popped from the most
    recent one; a callback that raises replaces the exception in
    flight, one that answers true clears it; the loop never stops
    early.  The result is the exception in flight at the end. *)
Fixpoint run_callbacks (cbs : list callback) (exc : option exn)
  : M (list event) (option exn) :=
  match cbs with
  | [] => mret exc
  | cb :: rest =>
      exc' ← try_except_base
               (suppress ← cb exc;
                mret (if suppress : bool then None else exc))
               (λ new_exc, mret (Some new_exc));
      run_callbacks rest exc'
  end.

(** Leaving [async with AsyncExitStack() as stack] with [exc] in
    flight. *)
Definition aexit_stack (exc : option exn) : M frame unit :=
  f ← get;
  modify clear_stack ;;
  exc' ← on_trace (run_callbacks (stack f) exc);
  thrown exc'.

(** Lines 96-144: the main branch up to its [yield]. *)
Definition main_start (l : locals)
    (sub_lifespans : list (fastapi * context)) : M frame (option point) :=
  try_except_base
    (establish sub_lifespans ;; summary l ;; mret (Some MainYield))
    (λ e, aexit_stack (Some e) ;; mret None).

(** Lines 144-146: the main branch from its [yield] on. *)
Definition main_resume (exc : option exn) : M frame unit :=
  aexit_stack exc.

(** Lines 78-180: the generator up to its first [yield]. *)
Definition lifespan_start (sub_lifespans : list (fastapi * context))
  : M frame (option point) :=
  f ← get;
  let l := read_locals (state (app f)) in
  if is_main_app l then main_start l sub_lifespans
  else sub_start l.

(** The generator from its [yield] on. *)
Definition lifespan_resume (p : point) (exc : option exn) : M frame unit :=
  match p with
  | MainYield => main_resume exc
  | SubYield client => sub_resume client exc
  end.

(** [contextlib.asynccontextmanager]: [__aenter__] runs the generator
    to its [yield] and raises when there is none. *)
Definition aenter (start : M frame (option point)) : M frame point :=
  r ← start;
  match r with
  | Some p => mret p
  | None => raise (RuntimeError "generator didn't yield")
  end.

(** [__aexit__] resumes the generator, throwing in the exception in
    flight.  A generator that returns has swallowed it.  When the
    generator raises, the exception is raised here as well; for the one
    that was thrown in, contextlib answers false instead, which leaves
    the same exception in flight in the exit stack. *)
Definition aexit (resume : option exn → M frame unit) (exc : option exn)
  : M frame bool :=
  resume exc ;;
  mret (match exc with Some _ => true | None => false end).

(** [app.router.lifespan_context(app)] for an application whose
    mounted sub-applications have the contexts [sub_lifespans]. *)
Definition lifespan_context (a : fastapi)
    (sub_lifespans : list (fastapi * context)) : context :=
  r ← in_frame (new_frame a []) (aenter (lifespan_start sub_lifespans));
  mret (app r.2,
        λ exc, b ← in_frame r.2 (aexit (lifespan_resume r.1) exc);
               mret b.1).

(** ** Routes *)

Inductive asgi :=
  | FastAPIApp (a : fastapi)
  | OtherApp.

Inductive route :=
  | Mount (path : string) (sub : asgi)
  | APIRoute (path : string).

(** Lines 100-104.  The sub-applications that [run] mounts have no
    [Mount] route of their own: their list of sub-lifespans is empty. *)
Definition sub_lifespans (routes : list route) : list (fastapi * context) :=
  omap (λ r, match r with
             | Mount _ (FastAPIApp a) => Some (a, lifespan_context a [])
             | _ => None
             end) routes.

(** The mounted [FastAPI] applications, in the order of the routes. *)
Definition mounted (routes : list route) : list fastapi :=
  omap (λ r, match r with
             | Mount _ (FastAPIApp a) => Some a
             | _ => None
             end) routes.

End lifespan.

(** ** [GracefulShutdown] and the process around it *)

(** The [GracefulShutdown] instance ([shutdown_event], [tasks]),
    [server.should_exit], the tasks that have completed, and the
    trace. *)
Record process := {
  shutdown_event : bool;
  tasks : gset task;
  should_exit : bool;
  finished : gset task;
  ptrace : list event;
}.

(** Lines 30-32 and the state [run] starts from. *)
Definition initial : process :=
  {| shutdown_event := false; tasks := ∅; should_exit := false;
     finished := ∅; ptrace := [] |}.

Definition pemit (e : event) : M process unit :=
  modify (λ p, {| shutdown_event := shutdown_event p; tasks := tasks p;
                  should_exit := should_exit p; finished := finished p;
                  ptrace := ptrace p ++ [e] |}).

Definition plog (lv : level) (m : message) : M process unit :=
  pemit (Log lv m).

(** [self.shutdown_event.set()] *)
Definition event_set : M process unit :=
  modify (λ p, {| shutdown_event := true; tasks := tasks p;
                  should_exit := should_exit p; finished := finished p;
                  ptrace := ptrace p |}).

(** Lines 34-39. *)
Definition handle_signal (sig : signum) : M process unit :=
  plog INFO (MReceived sig) ;;
  event_set.

(** Lines 41-44; the done-callback is [task_done] below. *)
Definition track_task (t : task) : M process unit :=
  modify (λ p, {| shutdown_event := shutdown_event p;
                  tasks := tasks p ∪ {[ t ]};
                  should_exit := should_exit p; finished := finished p;
                  ptrace := ptrace p |}).

(** A task completes: its done-callback discards it from [tasks]. *)
Definition task_done (t : task) : M process unit :=
  modify (λ p, {| shutdown_event := shutdown_event p;
                  tasks := tasks p ∖ {[ t ]};
                  should_exit := should_exit p;
                  finished := finished p ∪ {[ t ]};
                  ptrace := ptrace p |}).

(** [server.should_exit = True] *)
Definition set_should_exit : M process unit :=
  pemit SetShouldExit ;;
  modify (λ p, {| shutdown_event := shutdown_event p; tasks := tasks p;
                  should_exit := true; finished := finished p;
                  ptrace := ptrace p |}).

Definition server_task : task := 0.
Definition shutdown_wait_task : task := 1.

(** What the event loop runs while [run] is suspended: a signal
    arrives (the handler installed at lines 384-395 is called), or the
    serving task comes to its end. *)
Inductive happening :=
  | Signal (sig : signum)
  | ServerExits.

#[export] Instance happening_eq_dec : EqDecision happening.
Proof. solve_decision. Defined.

Definition happen (h : happening) : M process unit :=
  match h with
  | Signal sig => handle_signal sig
  | ServerExits => task_done server_task
  end.

Fixpoint pfor_each {A} (l : list A) (body : A → M process unit)
  : M process unit :=
  match l with
  | [] => mret tt
  | x :: rest => body x ;; pfor_each rest body
  end.

(** [task.done()]: the serving task once it has completed, the wait on
    the event once the event is set. *)
Definition task_is_done (p : process) (t : task) : bool :=
  bool_decide (t ∈ finished p)
  || (bool_decide (t = shutdown_wait_task) && shutdown_event p).

(** [asyncio.wait(ts, return_when=FIRST_COMPLETED)] while the event
    loop runs [hs]: the tasks that are done and those still pending,
    or [None] when none of them is done and the wait goes on. *)
Definition wait_first_completed (ts : list task) (hs : list happening)
  : M process (option (list task * list task)) :=
  pfor_each hs happen ;;
  p ← get;
  let done := filter (λ t, task_is_done p t = true) ts in
  let pending := filter (λ t, task_is_done p t = false) ts in
  mret (match done with [] => None | _ => Some (done, pending) end).

(** [asyncio.gather] of the tasks [ts] with [return_exceptions=True],
    while the signals [sigs] arrive: every task is awaited to its end,
    and its result [result_of t] is handed back as a value, an
    exception included. *)
Definition gather_return_exceptions (result_of : task → outcome unit)
    (ts : list task) (sigs : list signum) : M process (list (outcome unit)) :=
  pemit (Gather ts) ;;
  pfor_each sigs handle_signal ;;
  pfor_each ts task_done ;;
  mret (result_of <$> ts).

(** How one execution of lines 398-434 ended. *)
Inductive ending :=
  | StillWaiting
  | ShutDown.

(** [try: c finally: fin]; the [finally] clause does not run while
    [c] is still suspended in its wait. *)
Definition try_finally (c : M process ending) (fin : M process unit)
  : M process ending :=
  λ p, match c p with
       | (Ok StillWaiting, p') => (Ok StillWaiting, p')
       | (r, p') =>
           match fin p' with
           | (Ok _, p'') => (r, p'')
           | (Raise e, p'') => (Raise e, p'')
           end
       end.

(** Lines 398-434.  [at_wait] is what happens during the wait of line
    405, [at_gather] the signals that arrive during the gather of line
    429. *)
Definition serve_until_shutdown (result_of : task → outcome unit)
    (at_wait : list happening) (at_gather : list signum)
  : M process ending :=
  try_finally
   (try_except
    (pemit (CreateTask server_task) ;;
     track_task server_task ;;
     pemit (CreateTask shutdown_wait_task) ;;
     w ← wait_first_completed [server_task; shutdown_wait_task] at_wait;
     match w with
     | None => mret StillWaiting
     | Some (done, pending) =>
         (if bool_decide (server_task ∈ done) then
            plog WARNING MServerExited ;;
            event_set
          else mret tt) ;;
         pfor_each pending (λ t, pemit (Cancel t)) ;;
         plog INFO MInitiatingShutdown ;;
         set_should_exit ;;
         p ← get;
         pfor_each (elements (tasks p)) (λ t,
           if task_is_done p t then mret tt else pemit (Cancel t)) ;;
         (if bool_decide (tasks p ≠ ∅) then
            gather_return_exceptions result_of (elements (tasks p)) at_gather ;;
            mret tt
          else mret tt) ;;
         mret ShutDown
     end)
    (λ e, plog ERROR (MExecutionError e) ;; mret ShutDown))
   (plog INFO MShutdownComplete).

(** ** [run]: configuration *)

(** One entry of [mcpServers], as far as lines 332-359 read it. *)
Record server_cfg := {
  cfg_command : option string;
  cfg_args : option (list string);
  cfg_type : option string;
  cfg_url : option string;
}.

(** The parsed configuration file: [mcpServers] in the order of the
    file, [None] when the key is missing. *)
Record config_data := {
  mcpServers : option (list (string * server_cfg));
}.

(** The keyword arguments of [run] that decide the configuration. *)
Record kwargs := {
  kw_server_type : option string;
  kw_server_command : option (list string);
  kw_config_path : option string;
  kw_name : option string;
  kw_description : option string;
  kw_version : option string;
  kw_path_prefix : option string;
  kw_connection_timeout : option nat;
}.

(** What [run] finds outside: the content of a configuration file and
    the backend behind each server name. *)
Record environment := {
  json_load : string → outcome config_data;
  peer_of : string → backend;
}.

Definition empty_state : app_state :=
  {| server_type := None; command := None; args := None;
     connection_timeout := None; path_prefix := None;
     is_connected := None; has_session := false |}.

Fixpoint endswith_slash (s : string) : bool :=
  match s with
  | EmptyString => false
  | String c EmptyString => bool_decide (c = "/"%char)
  | String _ rest => endswith_slash rest
  end.

(** Lines 332-365: the state of the sub-application of one entry. *)
Definition sub_app_state (timeout : option nat) (cfg : server_cfg)
  : app_state :=
  let st1 :=
    if truthy_opt (cfg_command cfg) then
      {| server_type := Some "stdio"; command := cfg_command cfg;
         args := Some (ArgsList (default [] (cfg_args cfg)));
         connection_timeout := None; path_prefix := None;
         is_connected := None; has_session := false |}
    else empty_state in
  let with_url (ty url : string) :=
    {| server_type := Some ty; command := command st1;
       args := Some (ArgsList [url]);
       connection_timeout := None; path_prefix := None;
       is_connected := None; has_session := false |} in
  let url := default "" (cfg_url cfg) in
  let st2 :=
    if bool_decide (cfg_type cfg = Some "sse") && truthy url then
      with_url "sse" url
    else if (bool_decide (cfg_type cfg = Some "streamablehttp")
             || bool_decide (cfg_type cfg = Some "streamable_http"))
            && truthy url then
      with_url "streamablehttp"
        (if endswith_slash url then url else url +:+ "/")
    else if negb (truthy_opt (cfg_type cfg)) && truthy url then
      with_url "sse" url
    else st1 in
  {| server_type := server_type st2; command := command st2;
     args := args st2; connection_timeout := Some timeout;
     path_prefix := None; is_connected := None; has_session := false |}.

(** Lines 317-322 and 367: the sub-application of one entry and its
    mount. *)
Definition mount_server (env : environment) (prefix : string)
    (timeout : option nat) (entry : string * server_cfg) : route :=
  Mount (prefix +:+ entry.1)
    (FastAPIApp
       {| title := entry.1;
          description :=
            entry.1 +:+ " MCP Server" +:+ newline +:+ newline
              +:+ "- [back to tool list](/docs)";
          version := "1.0";
          state := sub_app_state timeout entry.2;
          peer := peer_of env entry.1 |}).

Definition or_default (x : option string) (d : string) : string :=
  if truthy_opt x then default d x else d.

(** Lines 247-258: the main application before a mode is chosen. *)
Definition new_main_app (env : environment) (kw : kwargs) : fastapi :=
  {| title := or_default (kw_name kw) "MCP OpenAPI Proxy";
     description :=
       or_default (kw_description kw)
         "Automatically generated API from MCP Tool Schemas";
     version := or_default (kw_version kw) "1.0";
     state :=
       {| server_type := None; command := None; args := None;
          connection_timeout := None;
          path_prefix := Some (or_default (kw_path_prefix kw) "/");
          is_connected := None; has_session := false |};
     peer := peer_of env (or_default (kw_name kw) "MCP OpenAPI Proxy") |}.

Definition set_mode (ty : string) (cmd : option string) (a : args_attr)
    (m : fastapi) : fastapi :=
  {| title := title m; description := description m; version := version m;
     state := {| server_type := Some ty; command := cmd; args := Some a;
                 connection_timeout := connection_timeout (state m);
                 path_prefix := path_prefix (state m);
                 is_connected := is_connected (state m);
                 has_session := has_session (state m) |};
     peer := peer m |}.

(** [server_command[0]] *)
Definition first_of (server_command : option (list string))
  : M process string :=
  match server_command with
  | None => raise (TypeError "'NoneType' object is not subscriptable")
  | Some [] => raise (IndexError "list index out of range")
  | Some (x :: _) => mret x
  end.

Definition join_spaces (l : list string) : string :=
  String.concat " " l.

(** Lines 280-370: the main application and its routes, or the error
    that ends [run].  The banner of lines 230-242 is not recorded. *)
Definition configure (env : environment) (kw : kwargs)
  : M process (fastapi * list route) :=
  let main_app := new_main_app env kw in
  let prefix := or_default (kw_path_prefix kw) "/" in
  if bool_decide (kw_server_type kw = Some "sse") then
    url ← first_of (kw_server_command kw);
    plog INFO (MConfiguringSse url) ;;
    mret (set_mode "sse" None (ArgsStr url) main_app, [])
  else if bool_decide (kw_server_type kw = Some "streamablehttp")
          || bool_decide (kw_server_type kw = Some "streamable_http") then
    url ← first_of (kw_server_command kw);
    plog INFO (MConfiguringStreamable url) ;;
    mret (set_mode "streamablehttp" None (ArgsStr url) main_app, [])
  else
    match kw_server_command kw with
    | Some (c :: rest) =>
        plog INFO (MConfiguringStdio (join_spaces (c :: rest))) ;;
        mret (set_mode "stdio" (Some c) (ArgsList rest) main_app, [])
    | _ =>
        match kw_config_path kw with
        | Some config_path =>
            if truthy config_path then
              plog INFO (MLoadingConfig config_path) ;;
              config ← lift (json_load env config_path);
              match mcpServers config with
              | Some (entry :: entries) =>
                  plog INFO MConfiguringServers ;;
                  mret (main_app,
                        mount_server env prefix (kw_connection_timeout kw)
                          <$> (entry :: entries))
              | _ =>
                  plog ERROR (MNoServersInConfig config_path) ;;
                  raise (ValueError "No 'mcpServers' found in config file.")
              end
            else
              plog ERROR MMustProvide ;;
              raise (ValueError
                       "You must provide either server_command or config.")
        | None =>
            plog ERROR MMustProvide ;;
            raise (ValueError
                     "You must provide either server_command or config.")
        end
    end.

(** Lines 183-434. *)
Definition run (env : environment) (kw : kwargs)
    (result_of : task → outcome unit)
    (at_wait : list happening) (at_gather : list signum)
  : M process (fastapi * list route * ending) :=
  configured ← configure env kw;
  plog INFO MUvicornStarting ;;
  e ← serve_until_shutdown result_of at_wait at_gather;
  mret (configured, e).

(** ** Notions used in the statements *)

(** An await that returns or raises an [Exception]: it is not cut
    short by a cancellation or by the interpreter exiting. *)
Definition ordinary_result (r : option exn) : bool :=
  match r with Some e => is_Exception e | None => true end.

Definition ordinary (b : backend) : bool :=
  ordinary_result (transport_enter b)
  && ordinary_result (session_enter b)
  && match initialize b with Ok _ => true | Raise e => is_Exception e end
  && ordinary_result (register_tools b)
  && ordinary_result (register_resource_templates b)
  && ordinary_result (register_resources b)
  && ordinary_result (session_exit b)
  && ordinary_result (transport_exit b).

Definition returns (r : option exn) : bool :=
  match r with None => true | Some _ => false end.

(** Every step of the establishment succeeds at the backend. *)
Definition handshake_ok (b : backend) : bool :=
  returns (transport_enter b)
  && returns (session_enter b)
  && match initialize b with Ok _ => true | Raise _ => false end
  && returns (register_tools b)
  && returns (register_resource_templates b)
  && returns (register_resources b).

(** The connection that the establishment of [a] leaves open, if any:
    [a] takes the sub-application branch, a transport exists for its
    server type and every step succeeds. *)
Definition connection (a : fastapi) : option client_context :=
  if is_main_app (read_locals (state a)) then None
  else match select_client (read_locals (state a)) with
       | Ok c => if handshake_ok (peer a) then Some c else None
       | Raise _ => None
       end.

(** The backend counts as connected after its establishment.  An
    application that takes the main branch keeps the flag it had. *)
Definition establishes (a : fastapi) : bool :=
  if is_main_app (read_locals (state a)) then get_is_connected a
  else bool_decide (is_Some (connection a)).

(** The establishment of [a] comes to an end of its own: it succeeds,
    or what its backend raises are [Exception]s. *)
Definition uninterrupted (a : fastapi) : bool :=
  establishes a || ordinary (peer a).

Definition connections (apps : list fastapi) : list client_context :=
  omap connection apps.

(** The transports, and the sessions, that a trace closes, in order. *)
Definition transport_releases (t : list event) : list client_context :=
  omap (λ e, match e with Await TransportExit c => Some c | _ => None end) t.

Definition session_releases (t : list event) : list client_context :=
  omap (λ e, match e with Await SessionExit c => Some c | _ => None end) t.

(** The records that open and close one turn of the establishment
    loop. *)
Definition begins (e : event) : bool :=
  match e with Log INFO (MInitiating _) => true | _ => false end.

Definition completes (e : event) : bool :=
  match e with
  | Log INFO (MConnected _) | Log WARNING (MNotConnected _)
  | Log ERROR (MFailedEstablish _) => true
  | _ => false
  end.

Definition completion_of (name : string) (e : event) : Prop :=
  e = Log INFO (MConnected name) ∨ e = Log WARNING (MNotConnected name)
  ∨ e = Log ERROR (MFailedEstablish name).

(** How many establishments are begun and not completed after the
    trace [t], when [n] were before it. *)
Fixpoint in_progress (t : list event) (n : nat) : nat :=
  match t with
  | [] => n
  | e :: rest =>
      in_progress rest
        (if begins e then S n else if completes e then pred n else n)
  end.

(** The description after the summary of a report. *)
Definition described (urljoin : string → string → string)
    (prefix : string) (succeeded : list string) (d : string) : string :=
  match succeeded with
  | [] => d
  | _ => foldl (λ d name, d +:+ tool_link urljoin prefix name)
           (d +:+ tools_header) succeeded
  end.

Definition signal_records (hs : list happening) : list event :=
  omap (λ h, match h with
             | Signal sig => Some (Log INFO (MReceived sig))
             | ServerExits => None
             end) hs.

(** A signal arrives during [hs]; the serving task ends during
    [hs]. *)
Definition signalled (hs : list happening) : bool :=
  nonempty (signal_records hs).

Fixpoint exited (hs : list happening) : bool :=
  match hs with
  | [] => false
  | ServerExits :: _ => true
  | Signal _ :: rest => exited rest
  end.

(** The number of shutdown sequences that a trace starts. *)
Definition shutdown_sequences (t : list event) : nat :=
  length (filter (λ e, e = Log INFO MInitiatingShutdown) t).

(** No serving task was created and nothing was awaited at a
    backend. *)
Definition no_attempt (e : event) : bool :=
  match e with
  | Log _ m => match m with MInitiating _ => false | _ => true end
  | _ => false
  end.

(** A stretch of trace with no record that opens or closes a turn of
    the establishment loop. *)
Definition quiet (δ : list event) : Prop :=
  Forall (λ e, begins e = false ∧ completes e = false) δ.

(** The records of one turn of the loop for [a]: the opening record,
    a quiet stretch, the closing record. *)
Definition block_of (a : fastapi) (blk : list event) : Prop :=
  ∃ mid fin, blk = Log INFO (MInitiating (title a)) :: mid ++ [fin]
    ∧ quiet mid ∧ completion_of (title a) fin.

(** The exit callback [cb] closes the connections [conns], whatever
    is in flight; and it returns when nothing is in flight. *)
Definition closes (cb : callback) (conns : list client_context) : Prop :=
  ∀ exc t, ∃ δ, (cb exc t).2 = t ++ δ
    ∧ transport_releases δ = conns ∧ session_releases δ = conns.

Definition closes_quietly (cb : callback) : Prop :=
  ∀ t, ∃ b, (cb None t).1 = Ok b.

(** The same for a whole exit stack. *)
Definition stack_closes (cbs : list callback) (conns : list client_context)
  : Prop :=
  ∀ exc t, ∃ δ, (run_callbacks cbs exc t).2 = t ++ δ
    ∧ transport_releases δ = conns ∧ session_releases δ = conns.

Definition stack_closes_quietly (cbs : list callback) : Prop :=
  ∀ t, (run_callbacks cbs None t).1 = Ok None.

(** Closing the session and the transport of [a] raises nothing but
    [Exception]s. *)
Definition releases_ordinarily (a : fastapi) : bool :=
  ordinary_result (session_exit (peer a))
  && ordinary_result (transport_exit (peer a)).

(** The sub-lifespans of applications that have no mounts of their
    own. *)
Definition leaves (urljoin : string → string → string) (apps : list fastapi)
  : list (fastapi * context) :=
  (λ a, (a, lifespan_context urljoin a [])) <$> apps.

(** What the summary of lines 126-142 logs for a report. *)
Definition summary_records (succeeded failed : list string) : list event :=
  [Log INFO MSummaryHeader]
  ++ (if nonempty succeeded then
        Log INFO MSuccessHeader :: ((λ n, Log INFO (MItem n)) <$> succeeded)
      else [])
  ++ (if nonempty failed then
        Log WARNING MFailedHeader :: ((λ n, Log WARNING (MItem n)) <$> failed)
      else [])
  ++ [Log INFO MSummaryFooter]
  ++ (if nonempty succeeded then [] else [Log ERROR MNoServers]).

(** ** A sample configuration

    Three stdio backends, of which the second fails its handshake, as
    [run] mounts them from a configuration file; used to instantiate
    the statements below. *)

(** [urljoin] on a base that ends in a slash and a relative path. *)
Definition sample_urljoin (base url : string) : string := base +:+ url.

Definition reachable : backend :=
  {| transport_enter := None; session_enter := None;
     initialize := Ok {| serverInfo := None; instructions := None |};
     register_tools := None; register_resource_templates := None;
     register_resources := None;
     session_exit := None; transport_exit := None |}.

Definition bad_handshake : backend :=
  {| transport_enter := None; session_enter := None;
     initialize := Raise (McpError "Connection closed");
     register_tools := None; register_resource_templates := None;
     register_resources := None;
     session_exit := None; transport_exit := None |}.

Definition sample_cfg (cmd : string) : server_cfg :=
  {| cfg_command := Some cmd; cfg_args := None; cfg_type := None;
     cfg_url := None |}.

Definition sample_env : environment :=
  {| json_load := λ _,
       Ok {| mcpServers :=
               Some [("first", sample_cfg "uvx");
                     ("second", sample_cfg "nope");
                     ("third", sample_cfg "npx")] |};
     peer_of := λ name,
       if bool_decide (name = "second") then bad_handshake else reachable |}.

Definition sample_kwargs : kwargs :=
  {| kw_server_type := None; kw_server_command := None;
     kw_config_path := Some "config.json"; kw_name := None;
     kw_description := None; kw_version := None; kw_path_prefix := None;
     kw_connection_timeout := None |}.

Definition sample_routes : list route :=
  mount_server sample_env "/" None
    <$> [("first", sample_cfg "uvx"); ("second", sample_cfg "nope");
         ("third", sample_cfg "npx")].

Definition sample_main : fastapi := new_main_app sample_env sample_kwargs.

(** The sub-application that [run] builds for a stdio entry. *)
Definition sample_app (name cmd : string) : fastapi :=
  {| title := name;
     description :=
       name +:+ " MCP Server" +:+ newline +:+ newline
         +:+ "- [back to tool list](/docs)";
     version := "1.0";
     state := sub_app_state None (sample_cfg cmd);
     peer := peer_of sample_env name |}.

Definition sample_first : fastapi := sample_app "first" "uvx".
Definition sample_second : fastapi := sample_app "second" "nope".
Definition sample_third : fastapi := sample_app "third" "npx".

(** An entry with neither a command nor a URL: its sub-application
    has no attribute of its own and takes the main branch. *)
Definition unconfigured : fastapi :=
  {| title := "blank";
     description :=
       "blank MCP Server" +:+ newline +:+ newline
         +:+ "- [back to tool list](/docs)";
     version := "1.0";
     state :=
       sub_app_state None
         {| cfg_command := None; cfg_args := None; cfg_type := None;
            cfg_url := None |};
     peer := reachable |}.

(** A configuration file without servers. *)
Definition empty_env : environment :=
  {| json_load := λ _, Ok {| mcpServers := Some [] |};
     peer_of := λ _, reachable |}.

(** ** Further notions *)

(** The calls that a trace awaits to open a connection, and those it
    awaits to close one, in order. *)
Definition enter_calls (t : list event) : list call :=
  omap (λ e, match e with
             | Await SessionExit _ | Await TransportExit _ => None
             | Await c _ => Some c
             | _ => None
             end) t.

Definition release_calls (t : list event) : list call :=
  omap (λ e, match e with
             | Await SessionExit _ => Some SessionExit
             | Await TransportExit _ => Some TransportExit
             | _ => None
             end) t.

(** The clients that a trace awaits at all. *)
Definition awaited (t : list event) : list client_context :=
  omap (λ e, match e with Await _ c => Some c | _ => None end) t.

(** The steps of an establishment, lines 171-174 and 58-75. *)
Definition establishment_steps : list call :=
  [TransportEnter; SessionEnter; Initialize; RegisterTools;
   RegisterResourceTemplates; RegisterResources].

(** The URL of an entry, when lines 339-359 use it: it is not empty
    and the type of the entry is a stream type or is missing. *)
Definition usable_url (cfg : server_cfg) : bool :=
  truthy (default "" (cfg_url cfg))
  && (bool_decide (cfg_type cfg = Some "sse")
      || bool_decide (cfg_type cfg = Some "streamablehttp")
      || bool_decide (cfg_type cfg = Some "streamable_http")
      || negb (truthy_opt (cfg_type cfg))).

(** The type of an entry selects the streamable HTTP transport. *)
Definition streamable_type (cfg : server_cfg) : bool :=
  bool_decide (cfg_type cfg = Some "streamablehttp")
  || bool_decide (cfg_type cfg = Some "streamable_http").


(** ** Notions of the teardown *)

(** The title of a sub-application after its handshake, lines 59-61:
    the name that the backend reports, if it reports one. *)
Definition connected_title (a : fastapi) : string :=
  match initialize (peer a) with
  | Ok r =>
      match serverInfo r with
      | Some si => str_or (si_name si) (title a)
      | None => title a
      end
  | Raise _ => title a
  end.

(** The exception in flight when the two [async with] of lines
    171-172 have been left with [exc] in flight: what the transport
    raised while it was closed, before what the session raised,
    before [exc]. *)
Definition in_flight_after (b : backend) (exc : option exn) : option exn :=
  match transport_exit b with
  | Some e => Some e
  | None => match session_exit b with Some e => Some e | None => exc end
  end.

(** What [except Exception] lets through. *)
Definition passed_on (exc : option exn) : option exn :=
  match exc with
  | Some e => if is_Exception e then None else Some e
  | None => None
  end.

(** Closing a connection: the two awaits, session first. *)
Definition exits (c : client_context) : list event :=
  [Await SessionExit c; Await TransportExit c].

Definition release_records (conns : list client_context) : list event :=
  concat (exits <$> conns).

(** What the teardown of [a] appends to the trace and leaves in
    flight, when [exc] is in flight before it. *)
Definition closing (a : fastapi) (exc : option exn)
  : list event * option exn :=
  match connection a with
  | Some c =>
      (exits c
       ++ match in_flight_after (peer a) exc with
          | Some e =>
              if is_Exception e
              then [Log ERROR (MFailedConnect (connected_title a) e)]
              else []
          | None => []
          end,
       passed_on (in_flight_after (peer a) exc))
  | None => ([], exc)
  end.

(** The same for several applications, in the order of the list. *)
Fixpoint closing_all (apps : list fastapi) (exc : option exn)
  : list event * option exn :=
  match apps with
  | [] => ([], exc)
  | a :: rest =>
      let one := closing a exc in
      let others := closing_all rest one.2 in
      (one.1 ++ others.1, others.2)
  end.

(** The exit stack [cbs] tears down the applications [apps]. *)
Definition stack_runs (cbs : list callback) (apps : list fastapi) : Prop :=
  ∀ exc t, run_callbacks cbs exc t
           = (Ok (closing_all apps exc).2, t ++ (closing_all apps exc).1).

(** Closing the session and the transport of [a] raises nothing. *)
Definition releases_return (a : fastapi) : bool :=
  returns (session_exit (peer a)) && returns (transport_exit (peer a)).

(** An await at a backend, as opposed to a log record. *)
Definition is_await (e : event) : bool :=
  match e with Await _ _ => true | _ => false end.

(** The transport that the establishment of [a] opens, and the
    session: the application takes the sub-application branch, a
    transport exists for its server type and entering it returns;
    for the session, entering it returns as well. *)
Definition opened_transport (a : fastapi) : option client_context :=
  if is_main_app (read_locals (state a)) then None
  else match select_client (read_locals (state a)) with
       | Ok c => if returns (transport_enter (peer a)) then Some c else None
       | Raise _ => None
       end.

Definition opened_session (a : fastapi) : option client_context :=
  if is_main_app (read_locals (state a)) then None
  else match select_client (read_locals (state a)) with
       | Ok c =>
           if returns (transport_enter (peer a))
              && returns (session_enter (peer a))
           then Some c else None
       | Raise _ => None
       end.

(** ** Further samples *)

(** A backend that reports a name in its handshake and then fails to
    list its tools, and the sub-application of an entry for it. *)
Definition renaming_backend : backend :=
  {| transport_enter := None; session_enter := None;
     initialize :=
       Ok {| serverInfo := Some {| si_name := "time"; si_version := "2.1" |};
             instructions := None |};
     register_tools := Some (McpError "Method not found");
     register_resource_templates := None; register_resources := None;
     session_exit := None; transport_exit := None |}.

Definition sample_renamed : fastapi :=
  {| title := "clock";
     description :=
       "clock MCP Server" +:+ newline +:+ newline
         +:+ "- [back to tool list](/docs)";
     version := "1.0";
     state := sub_app_state None (sample_cfg "uvx");
     peer := renaming_backend |}.

(** A backend whose handshake is cancelled, the sub-application of
    an entry for it, and the routes of a gateway that mounts it
    between the first and the third sample. *)
Definition cancelled_handshake : backend :=
  {| transport_enter := None; session_enter := None;
     initialize := Raise CancelledError;
     register_tools := None; register_resource_templates := None;
     register_resources := None;
     session_exit := None; transport_exit := None |}.

Definition sample_cancelled : fastapi :=
  {| title := "slow";
     description :=
       "slow MCP Server" +:+ newline +:+ newline
         +:+ "- [back to tool list](/docs)";
     version := "1.0";
     state := sub_app_state None (sample_cfg "sleep");
     peer := cancelled_handshake |}.

Definition interrupted_routes : list route :=
  [Mount "/first" (FastAPIApp sample_first);
   Mount "/slow" (FastAPIApp sample_cancelled);
   Mount "/third" (FastAPIApp sample_third)].


Definition sample_streamable_cfg : server_cfg :=
  {| cfg_command := Some "uvx"; cfg_args := None;
     cfg_type := Some "streamable_http";
     cfg_url := Some "http://localhost:8002/mcp" |}.

Definition blank_cfg : server_cfg :=
  {| cfg_command := None; cfg_args := None; cfg_type := None;
     cfg_url := None |}.

(** The keyword arguments of [run] in single-server mode. *)
Definition single_kwargs (ty : option string) (server_command : list string)
  : kwargs :=
  {| kw_server_type := ty; kw_server_command := Some server_command;
     kw_config_path := Some "config.json"; kw_name := None;
     kw_description := None; kw_version := None; kw_path_prefix := None;
     kw_connection_timeout := Some 30 |}.

(** The sample environment with a configuration file that cannot be
    read. *)
Definition unreadable_env : environment :=
  {| json_load := λ _, Raise (OSError "No such file or directory");
     peer_of := peer_of sample_env |}.

(** ** Proof steps *)

(** Unfold the monad and the writes to the frame. *)
Ltac run_monad :=
  cbv [mbind M_bind mret M_ret bind ret modify try_except try_except_base
       get lift await emit raise on_raise leave_with thrown
       create_dynamic_endpoints connection_failed log
       with_app with_trace set_is_connected set_session set_title
       set_description set_version
       app trace state peer title description version
       successful_servers failed_servers stack has_session is_connected
       transport_enter session_enter initialize register_tools
       register_resource_templates register_resources session_exit
       transport_exit serverInfo instructions negb fst snd].

(** Case on the next answer of the backend along the execution. *)
Ltac step_oracle :=
  match goal with
  | r : initialize_result |- _ => destruct r as [?si ?ins]
  | |- context [match ?x with _ => _ end] =>
      is_var x; destruct x eqn:?
  | |- context [is_Exception ?e] =>
      is_var e; destruct (is_Exception e) eqn:?
  | |- context [if ?x then _ else _] =>
      is_var x; destruct x eqn:?
  | |- context [if truthy_opt ?x then _ else _] =>
      destruct (truthy_opt x) eqn:?
  end.

Ltac use_exn_facts :=
  repeat match goal with
  | H : is_Exception _ = _ |- _ => rewrite H
  end.

Ltac close_trace :=
  eexists; split; [rewrite <- ?app_assoc; simpl; reflexivity |];
  split; [repeat constructor |].

(** Unfold the monad and the writes to the process. *)
Ltac run_process :=
  cbv [mbind M_bind mret M_ret bind ret modify get raise try_except
       try_except_base try_finally pemit plog event_set track_task task_done
       set_should_exit handle_signal].

(** * Facts *)

Lemma select_client_raises l e :
  select_client l = Raise e → is_Exception e = true.
Proof.
  unfold select_client. repeat case_match; intros; simplify_eq; done.
Qed.

(** The sub-application branch up to its [yield]: what it appends to
    the trace, and what each of its three ends means. *)
Lemma sub_start_spec l f :
  ∃ δ, trace (sub_start l f).2 = trace f ++ δ ∧ quiet δ
    ∧ stack (sub_start l f).2 = stack f
    ∧ successful_servers (sub_start l f).2 = successful_servers f
    ∧ failed_servers (sub_start l f).2 = failed_servers f
    ∧ peer (app (sub_start l f).2) = peer (app f)
    ∧ match (sub_start l f).1 with
      | Ok (Some p) =>
          ∃ c, select_client l = Ok c ∧ p = SubYield c
               ∧ handshake_ok (peer (app f)) = true
               ∧ is_connected (state (app (sub_start l f).2)) = Some true
      | Ok None =>
          match select_client l with
          | Ok _ => handshake_ok (peer (app f)) = false
          | Raise _ => True
          end
          ∧ is_connected (state (app (sub_start l f).2)) = Some false
          ∧ ∃ e, last δ
                 = Some (Log ERROR
                           (MFailedConnect (title (app (sub_start l f).2)) e))
      | Raise e =>
          is_Exception e = false ∧ ordinary (peer (app f)) = false
          ∧ match select_client l with
            | Ok _ => handshake_ok (peer (app f)) = false
            | Raise _ => True
            end
      end.
Proof.
  destruct f as [[ti de ve [sty cmd ar ct pp ic hs]
                    [te se ini rt rrt rr sx tx]] t su fa sk].
  unfold sub_start.
  destruct (select_client l) as [c|e0] eqn:Hc.
  - run_monad. repeat step_oracle.
    all: close_trace.
    all: repeat split; try done.
    all: try (eexists; repeat split; done).
    all: try (eexists; reflexivity).
    all: unfold ordinary, ordinary_result; cbn; use_exn_facts;
         rewrite ?andb_false_r; reflexivity.
  - pose proof (select_client_raises _ _ Hc) as He0.
    run_monad. rewrite He0.
    close_trace. repeat split; try done. eexists; reflexivity.
Qed.

(** The sub-application branch from its [yield] on: session and
    transport are both closed, whatever is thrown in and whatever the
    closing raises. *)
Lemma sub_resume_spec c exc f :
  ∃ δ, trace (sub_resume c exc f).2 = trace f ++ δ
    ∧ transport_releases δ = [c] ∧ session_releases δ = [c]
    ∧ (ordinary_result (session_exit (peer (app f))) = true →
       ordinary_result (transport_exit (peer (app f))) = true →
       ordinary_result exc = true →
       (sub_resume c exc f).1 = Ok tt).
Proof.
  destruct f as [[ti de ve [sty cmd ar ct pp ic hs]
                    [te se ini rt rrt rr sx tx]] t su fa sk].
  unfold sub_resume. run_monad. repeat step_oracle.
  all: eexists; split; [rewrite <- ?app_assoc; simpl; reflexivity |].
  all: repeat split; try done.
  all: cbn; intros; congruence.
Qed.

(** ** The establishment loop *)

Section establishment.
Variable urljoin : string → string → string.


Lemma lifespan_context_eq a subs t :
  lifespan_context urljoin a subs t =
  match lifespan_start urljoin subs (new_frame a t) with
  | (Ok (Some p), f') =>
      (Ok (app f',
           λ exc, b ← in_frame f' (aexit (lifespan_resume p) exc); mret b.1),
       trace f')
  | (Ok None, f') => (Raise (RuntimeError "generator didn't yield"), trace f')
  | (Raise e, f') => (Raise e, trace f')
  end.
Proof.
  unfold lifespan_context, in_frame, aenter.
  cbv [mbind M_bind bind mret M_ret ret raise].
  change (with_trace t (new_frame a [])) with (new_frame a t).
  destruct (lifespan_start urljoin subs (new_frame a t)) as [[[p|]|e] f'];
    reflexivity.
Qed.

Lemma main_start_no_mounts l f :
  successful_servers f = [] → failed_servers f = [] →
  main_start urljoin l [] f
  = (Ok (Some MainYield),
     with_trace (trace f ++ [Log INFO MSummaryHeader; Log INFO MSummaryFooter;
                             Log ERROR MNoServers]) f).
Proof.
  destruct f as [a t su fa sk]. simpl. intros -> ->.
  unfold main_start, establish, summary. run_monad.
  cbn [nonempty]. rewrite <- !app_assoc. reflexivity.
Qed.

Lemma leaf_context a t :
  ∃ δ, (lifespan_context urljoin a [] t).2 = t ++ δ ∧ quiet δ
    ∧ match (lifespan_context urljoin a [] t).1 with
      | Ok (a', cb) =>
          get_is_connected a' = establishes a
          ∧ closes cb (option_list (connection a))
          ∧ (releases_ordinarily a = true → closes_quietly cb)
      | Raise e =>
          establishes a = false
          ∧ (is_Exception e = false → ordinary (peer a) = false)
      end.
Proof.
  rewrite lifespan_context_eq.
  unfold lifespan_start, establishes, connection.
  unfold mbind, M_bind, bind, get. cbn [app new_frame].
  destruct (is_main_app (read_locals (state a))) eqn:Hmain.
  - rewrite main_start_no_mounts by done.
    eexists; split; [reflexivity|]. split; [repeat constructor|].
    cbn [fst snd app with_trace new_frame]. split; [done|]. split.
    + intros exc t'. exists []. rewrite app_nil_r. by destruct exc.
    + intros _ t'. by exists false.
  - pose proof (sub_start_spec (read_locals (state a)) (new_frame a t))
      as (δ & Ht & Hq & Hsk & Hsu & Hfa & Hpeer & Hres).
    destruct (sub_start (read_locals (state a)) (new_frame a t))
      as [[[p|]|e] f'] eqn:Hs; cbn [fst snd app new_frame] in *.
    + destruct Hres as (c & Hc & -> & Hok & Hconn).
      exists δ. split; [done|]. split; [done|].
      rewrite Hc, Hok. split.
      { unfold get_is_connected. rewrite Hconn. done. }
      split.
      * intros exc t'.
        pose proof (sub_resume_spec c exc (with_trace t' f'))
          as (δ' & Ht' & Htr & Hse & _).
        exists δ'. split; [|done].
        unfold in_frame, aexit, lifespan_resume.
        cbv [mbind M_bind bind mret M_ret ret].
        destruct (sub_resume c exc (with_trace t' f')) as [[[]|e] f''];
          cbn [fst snd] in *; done.
      * intros Hrel t'. unfold releases_ordinarily in Hrel.
        apply andb_prop in Hrel as [H1 H2].
        pose proof (sub_resume_spec c None (with_trace t' f'))
          as (δ' & Ht' & Htr & Hse & Hq').
        exists false.
        unfold in_frame, aexit, lifespan_resume.
        cbv [mbind M_bind bind mret M_ret ret].
        destruct (sub_resume c None (with_trace t' f')) as [[[]|e] f''];
          cbn [fst snd] in *; [done|].
        cbn [app with_trace] in Hq'. rewrite Hpeer in Hq'.
        cbn [app new_frame] in Hq'. by specialize (Hq' H1 H2 eq_refl).
    + destruct Hres as (Hc & Hconn & e & Hlast).
      exists δ. split; [done|]. split; [done|]. split; [|done].
      destruct (select_client _); [rewrite Hc|]; done.
    + destruct Hres as (He & Hord & Hc).
      exists δ. split; [done|]. split; [done|]. split; [|done].
      destruct (select_client _); [rewrite Hc|]; done.
Qed.

Lemma releases_app δ1 δ2 :
  transport_releases (δ1 ++ δ2)
  = transport_releases δ1 ++ transport_releases δ2
  ∧ session_releases (δ1 ++ δ2)
    = session_releases δ1 ++ session_releases δ2.
Proof. unfold transport_releases, session_releases. by rewrite !omap_app. Qed.

Lemma run_callbacks_app cbs1 cbs2 exc t :
  run_callbacks (cbs1 ++ cbs2) exc t
  = match run_callbacks cbs1 exc t with
    | (Ok exc', t') => run_callbacks cbs2 exc' t'
    | (Raise e, t') => (Raise e, t')
    end.
Proof.
  revert exc t. induction cbs1 as [|cb cbs1 IH]; intros exc t; [done|].
  rewrite <- app_comm_cons. cbn [run_callbacks].
  cbv [mbind M_bind bind try_except_base mret M_ret ret].
  destruct (cb exc t) as [[b|e] t']; apply IH.
Qed.

Lemma run_callbacks_total cbs exc t :
  ∃ exc', (run_callbacks cbs exc t).1 = Ok exc'.
Proof.
  revert exc t. induction cbs as [|cb cbs IH]; intros exc t; [by eexists|].
  cbn [run_callbacks]. cbv [mbind M_bind bind try_except_base mret M_ret ret].
  destruct (cb exc t) as [[b|e] t']; apply IH.
Qed.

Lemma stack_closes_nil : stack_closes [] [].
Proof. intros exc t. exists []. by rewrite app_nil_r. Qed.

Lemma stack_closes_one cb conns : closes cb conns → stack_closes [cb] conns.
Proof.
  intros H exc t. destruct (H exc t) as (δ & Ht & Htr & Hse).
  exists δ. split; [|done].
  cbn [run_callbacks]. cbv [mbind M_bind bind try_except_base mret M_ret ret].
  destruct (cb exc t) as [[b|e] t']; done.
Qed.

Lemma stack_closes_app cbs1 cbs2 c1 c2 :
  stack_closes cbs1 c1 → stack_closes cbs2 c2 →
  stack_closes (cbs1 ++ cbs2) (c1 ++ c2).
Proof.
  intros H1 H2 exc t. rewrite run_callbacks_app.
  destruct (H1 exc t) as (δ1 & Ht1 & Htr1 & Hse1).
  destruct (run_callbacks_total cbs1 exc t) as [exc' Hok].
  destruct (run_callbacks cbs1 exc t) as [[exc1|e] t1]; [|done].
  cbn [fst snd] in *. subst t1.
  destruct (H2 exc1 (t ++ δ1)) as (δ2 & Ht2 & Htr2 & Hse2).
  exists (δ1 ++ δ2). rewrite Ht2, app_assoc.
  destruct (releases_app δ1 δ2) as [-> ->]. by rewrite Htr1, Htr2, Hse1, Hse2.
Qed.

Lemma stack_closes_quietly_nil : stack_closes_quietly [].
Proof. done. Qed.

Lemma stack_closes_quietly_one cb :
  closes_quietly cb → stack_closes_quietly [cb].
Proof.
  intros H t. destruct (H t) as [b Hb].
  cbn [run_callbacks]. cbv [mbind M_bind bind try_except_base mret M_ret ret].
  destruct (cb None t) as [[b'|e] t']; [|done]. by destruct b'.
Qed.

Lemma stack_closes_quietly_app cbs1 cbs2 :
  stack_closes_quietly cbs1 → stack_closes_quietly cbs2 →
  stack_closes_quietly (cbs1 ++ cbs2).
Proof.
  intros H1 H2 t. rewrite run_callbacks_app. specialize (H1 t).
  destruct (run_callbacks cbs1 None t) as [[exc1|e] t1]; [|done].
  cbn in H1. injection H1 as ->. apply H2.
Qed.

Lemma attempt_eq sub cm f :
  attempt (sub, cm) f =
  match cm (trace f ++ [Log INFO (MInitiating (title sub))]) with
  | (Ok (a', cb), t') =>
      if get_is_connected a' then
        (Ok tt,
         {| app := app f;
            trace := t' ++ [Log INFO (MConnected (title sub))];
            successful_servers := successful_servers f ++ [title sub];
            failed_servers := failed_servers f;
            stack := cb :: stack f |})
      else
        (Ok tt,
         {| app := app f;
            trace := t' ++ [Log WARNING (MNotConnected (title sub))];
            successful_servers := successful_servers f;
            failed_servers := failed_servers f ++ [title sub];
            stack := cb :: stack f |})
  | (Raise e, t') =>
      if is_Exception e then
        (Ok tt,
         {| app := app f;
            trace := t' ++ [Log ERROR (MFailedEstablish (title sub))];
            successful_servers := successful_servers f;
            failed_servers := failed_servers f ++ [title sub];
            stack := stack f |})
      else
        (Raise e,
         {| app := app f; trace := t';
            successful_servers := successful_servers f;
            failed_servers := failed_servers f;
            stack := stack f |})
  end.
Proof.
  destruct f as [m t su fa sk].
  unfold attempt, enter_async_context, on_trace.
  cbv [mbind M_bind mret M_ret bind ret modify try_except try_except_base
       get raise log emit with_trace].
  cbn [fst snd trace app successful_servers failed_servers stack].
  destruct (cm (t ++ [Log INFO (MInitiating (title sub))]))
    as [[[a' cb]|e] t']; cbn [fst snd].
  - by destruct (get_is_connected a').
  - by destruct (is_Exception e).
Qed.

Lemma attempt_leaf a f :
  uninterrupted a = true →
  (attempt (a, lifespan_context urljoin a []) f).1 = Ok tt
  ∧ app (attempt (a, lifespan_context urljoin a []) f).2 = app f
  ∧ successful_servers (attempt (a, lifespan_context urljoin a []) f).2
    = successful_servers f ++ (if establishes a then [title a] else [])
  ∧ failed_servers (attempt (a, lifespan_context urljoin a []) f).2
    = failed_servers f ++ (if establishes a then [] else [title a])
  ∧ (∃ blk, trace (attempt (a, lifespan_context urljoin a []) f).2
            = trace f ++ blk ∧ block_of a blk)
  ∧ (∃ cbs, stack (attempt (a, lifespan_context urljoin a []) f).2
            = cbs ++ stack f
       ∧ stack_closes cbs (option_list (connection a))
       ∧ (releases_ordinarily a = true → stack_closes_quietly cbs)).
Proof.
  intros Hun. rewrite attempt_eq.
  pose proof (leaf_context a (trace f ++ [Log INFO (MInitiating (title a))]))
    as (δ & Ht & Hq & Hres).
  destruct (lifespan_context urljoin a []
              (trace f ++ [Log INFO (MInitiating (title a))]))
    as [[[a' cb]|e] t'] eqn:Hctx; cbn [fst snd] in *; subst t'.
  - destruct Hres as (Hflag & Hcl & Hclq). rewrite <- Hflag.
    assert (∃ cbs, cb :: stack f = cbs ++ stack f
              ∧ stack_closes cbs (option_list (connection a))
              ∧ (releases_ordinarily a = true → stack_closes_quietly cbs))
      as Hstack.
    { exists [cb]. split; [reflexivity|]. split.
      - by apply stack_closes_one.
      - intros H. by apply stack_closes_quietly_one, Hclq. }
    destruct (get_is_connected a');
      cbn [fst snd app trace successful_servers failed_servers stack];
      rewrite ?app_nil_r.
    + split_and!; [reflexivity..| |exact Hstack].
      exists (Log INFO (MInitiating (title a))
              :: δ ++ [Log INFO (MConnected (title a))]).
      split; [by rewrite <- !app_assoc|].
      exists δ, (Log INFO (MConnected (title a))).
      split; [reflexivity|]. split; [exact Hq|]. by left.
    + split_and!; [reflexivity..| |exact Hstack].
      exists (Log INFO (MInitiating (title a))
              :: δ ++ [Log WARNING (MNotConnected (title a))]).
      split; [by rewrite <- !app_assoc|].
      exists δ, (Log WARNING (MNotConnected (title a))).
      split; [reflexivity|]. split; [exact Hq|]. right; by left.
  - destruct Hres as (Hest & Hexn).
    assert (is_Exception e = true) as ->.
    { destruct (is_Exception e) eqn:He; [done|].
      unfold uninterrupted in Hun. rewrite Hest, Hexn in Hun; done. }
    rewrite Hest.
    cbn [fst snd app trace successful_servers failed_servers stack].
    rewrite ?app_nil_r.
    split_and!; [reflexivity..| |].
    + exists (Log INFO (MInitiating (title a))
              :: δ ++ [Log ERROR (MFailedEstablish (title a))]).
      split; [by rewrite <- !app_assoc|].
      exists δ, (Log ERROR (MFailedEstablish (title a))).
      split; [reflexivity|]. split; [exact Hq|]. right; by right.
    + exists []. split; [reflexivity|].
      assert (connection a = None) as ->.
      { unfold establishes in Hest. destruct (connection a) eqn:Hc; [|done].
        destruct (is_main_app _) eqn:Hm; [|done].
        unfold connection in Hc. by rewrite Hm in Hc. }
      split; [apply stack_closes_nil | intros; apply stack_closes_quietly_nil].
Qed.

Lemma sub_lifespans_leaves routes :
  sub_lifespans urljoin routes = leaves urljoin (mounted routes).
Proof.
  unfold sub_lifespans, mounted, leaves.
  induction routes as [|[p [a|]|p] routes IH]; cbn; by rewrite ?IH.
Qed.

Lemma rev_connections_cons a apps :
  rev (connections (a :: apps))
  = rev (connections apps) ++ option_list (connection a).
Proof.
  unfold connections. cbn [omap list_omap].
  destruct (connection a); cbn [option_list rev]; [done|].
  by rewrite app_nil_r.
Qed.

Lemma establish_leaves apps f :
  Forall (λ a, uninterrupted a = true) apps →
  (establish (leaves urljoin apps) f).1 = Ok tt
  ∧ app (establish (leaves urljoin apps) f).2 = app f
  ∧ successful_servers (establish (leaves urljoin apps) f).2
    = successful_servers f
      ++ (title <$> filter (λ a, establishes a = true) apps)
  ∧ failed_servers (establish (leaves urljoin apps) f).2
    = failed_servers f
      ++ (title <$> filter (λ a, establishes a = false) apps)
  ∧ (∃ blocks, trace (establish (leaves urljoin apps) f).2
               = trace f ++ concat blocks
       ∧ Forall2 block_of apps blocks)
  ∧ (∃ cbs, stack (establish (leaves urljoin apps) f).2 = cbs ++ stack f
       ∧ stack_closes cbs (rev (connections apps))
       ∧ (Forall (λ a, releases_ordinarily a = true) apps →
          stack_closes_quietly cbs)).
Proof.
  revert f. induction apps as [|a apps IH]; intros f Hall.
  - cbn. rewrite !app_nil_r. split_and!; try reflexivity.
    + exists []. by rewrite app_nil_r.
    + exists []. split; [done|]. split; [apply stack_closes_nil|done].
  - apply Forall_cons in Hall as [Ha Hall].
    cbn [leaves fmap list_fmap establish].
    change ((λ a0, (a0, lifespan_context urljoin a0 [])) <$> apps)
      with (leaves urljoin apps).
    unfold mbind, M_bind, bind.
    destruct (attempt_leaf a f Ha)
      as (Hok & Happ & Hsu & Hfa & (blk & Htr & Hblk) & (cbs & Hsk & Hcl & Hq)).
    destruct (attempt (a, lifespan_context urljoin a []) f) as [[[]|e] f1];
      cbn [fst snd] in *; [|done].
    destruct (IH f1 Hall)
      as (Hok' & Happ' & Hsu' & Hfa' & (blocks & Htr' & Hblocks)
          & (cbs' & Hsk' & Hcl' & Hq')).
    split_and!.
    + done.
    + congruence.
    + rewrite Hsu', Hsu, <- app_assoc. f_equal.
      rewrite filter_cons. destruct (establishes a); by case_decide.
    + rewrite Hfa', Hfa, <- app_assoc. f_equal.
      rewrite filter_cons. destruct (establishes a); by case_decide.
    + exists (blk :: blocks). split; [|by constructor].
      rewrite Htr', Htr, <- app_assoc. done.
    + exists (cbs' ++ cbs). split; [by rewrite Hsk', Hsk, app_assoc|]. split.
      * rewrite rev_connections_cons. by apply stack_closes_app.
      * intros Hrel. apply Forall_cons in Hrel as [Hr Hrel].
        apply stack_closes_quietly_app; auto.
Qed.
Lemma for_each_log lv names f :
  for_each names (λ name, log lv (MItem name)) f
  = (Ok tt, with_trace (trace f ++ ((λ n, Log lv (MItem n)) <$> names)) f).
Proof.
  revert f. induction names as [|n names IH]; intros f.
  - cbn. rewrite app_nil_r. by destruct f.
  - cbn [for_each]. unfold mbind, M_bind, bind, log, emit, modify.
    rewrite IH. destruct f; cbn. by rewrite <- app_assoc.
Qed.

Lemma for_each_link prefix names f :
  for_each names (λ name,
    modify (with_app (λ a,
      set_description (description a +:+ tool_link urljoin prefix name) a))) f
  = (Ok tt,
     with_app (set_description
       (foldl (λ d name, d +:+ tool_link urljoin prefix name)
          (description (app f)) names)) f).
Proof.
  revert f. induction names as [|n names IH]; intros f.
  - cbn. by destruct f as [[] ? ? ? ?].
  - cbn [for_each]. unfold mbind, M_bind, bind, modify.
    rewrite IH. by destruct f as [[] ? ? ? ?].
Qed.

Lemma log_eq lv m f :
  log lv m f = (Ok tt, with_trace (trace f ++ [Log lv m]) f).
Proof. reflexivity. Qed.

Lemma modify_eq {S} (g : S → S) (s : S) : modify g s = (Ok tt, g s).
Proof. reflexivity. Qed.

Lemma get_eq {S} (s : S) : get s = (Ok s, s).
Proof. reflexivity. Qed.

(** What the summary does to a frame. *)
Lemma summary_spec l f :
  summary urljoin l f
  = (Ok tt,
     with_trace
       (trace f ++ summary_records (successful_servers f) (failed_servers f))
       (with_app (set_description
          (described urljoin (l_path_prefix l) (successful_servers f)
             (description (app f)))) f)).
Proof.
  unfold summary, summary_records, described.
  destruct f as [[ti de ve st pe] t su fa sk].
  cbv [mbind M_bind bind mret M_ret ret].
  rewrite log_eq, get_eq.
  cbn [trace successful_servers failed_servers app description with_trace].
  destruct su as [|s su], fa as [|x fa]; cbn [nonempty].
  all: repeat (rewrite ?log_eq, ?for_each_log, ?for_each_link, ?modify_eq;
               cbn [trace successful_servers failed_servers app description
                    with_trace with_app set_description title version state
                    peer stack]).
  all: rewrite <- ?app_assoc; cbn; try reflexivity.
Qed.

(** The main branch over sub-applications without mounts, when no
    establishment is interrupted. *)
Lemma main_start_spec l apps f :
  Forall (λ a, uninterrupted a = true) apps →
  ∃ blocks cbs,
    Forall2 block_of apps blocks
    ∧ stack_closes cbs (rev (connections apps))
    ∧ (Forall (λ a, releases_ordinarily a = true) apps →
       stack_closes_quietly cbs)
    ∧ main_start urljoin l (leaves urljoin apps) f
      = (Ok (Some MainYield),
         {| app :=
              set_description
                (described urljoin (l_path_prefix l)
                   (successful_servers f
                    ++ (title <$> filter (λ a, establishes a = true) apps))
                   (description (app f))) (app f);
            trace :=
              trace f ++ concat blocks
              ++ summary_records
                   (successful_servers f
                    ++ (title <$> filter (λ a, establishes a = true) apps))
                   (failed_servers f
                    ++ (title <$> filter (λ a, establishes a = false) apps));
            successful_servers :=
              successful_servers f
              ++ (title <$> filter (λ a, establishes a = true) apps);
            failed_servers :=
              failed_servers f
              ++ (title <$> filter (λ a, establishes a = false) apps);
            stack := cbs ++ stack f |}).
Proof.
  intros Hall.
  destruct (establish_leaves apps f Hall)
    as (Hok & Happ & Hsu & Hfa & (blocks & Htr & Hblocks)
        & (cbs & Hsk & Hcl & Hq)).
  exists blocks, cbs. split_and!; [done..|].
  unfold main_start, try_except_base, mbind, M_bind, bind.
  destruct (establish (leaves urljoin apps) f) as [[[]|e] f1];
    cbn [fst snd] in *; [|done].
  rewrite summary_spec. cbn [mret M_ret ret].
  destruct f1 as [a1 t1 su1 fa1 sk1]; cbn in *; subst.
  by rewrite <- app_assoc.
Qed.

Lemma filter_establishes_length (apps : list fastapi) :
  length (filter (λ a, establishes a = false) apps)
  = length apps - length (filter (λ a, establishes a = true) apps).
Proof.
  induction apps as [|a apps IH]; [done|].
  rewrite !filter_cons.
  pose proof (length_filter (λ a, establishes a = true) apps).
  destruct (establishes a); repeat case_decide; try done; cbn; lia.
Qed.

(** C1. For every configured sequence of N backends whose
    establishments all come to an end, K of them in success and N-K in
    failure, the establishment pass of the main application returns
    without raising, its list of succeeded names has length K and its
    list of failed names has length N-K, and both lists are in the
    order of the configuration. *)
Theorem establishment_report l main t routes :
  Forall (λ a, uninterrupted a = true) (mounted routes) →
  let r := main_start urljoin l (sub_lifespans urljoin routes)
             (new_frame main t) in
  let K := length (filter (λ a, establishes a = true) (mounted routes)) in
  r.1 = Ok (Some MainYield)
  ∧ successful_servers r.2
    = title <$> filter (λ a, establishes a = true) (mounted routes)
  ∧ failed_servers r.2
    = title <$> filter (λ a, establishes a = false) (mounted routes)
  ∧ length (successful_servers r.2) = K
  ∧ length (failed_servers r.2) = length (mounted routes) - K.
Proof.
  intros Hall. rewrite sub_lifespans_leaves.
  destruct (main_start_spec l (mounted routes) (new_frame main t) Hall)
    as (blocks & cbs & _ & _ & _ & ->).
  cbn. split_and!; try done.
  - by rewrite length_fmap.
  - by rewrite length_fmap, filter_establishes_length.
Qed.

Lemma block_begins a blk :
  block_of a blk → Log INFO (MInitiating (title a)) ∈ blk.
Proof. intros (mid & fin & -> & _). apply list_elem_of_here. Qed.

Lemma elem_of_concat (e : event) blk blocks :
  e ∈ blk → blk ∈ blocks → e ∈ concat blocks.
Proof.
  intros He. induction 1 as [|? ? ? ? IH]; cbn; apply elem_of_app; auto.
Qed.

Lemma blocks_attempted apps blocks a :
  Forall2 block_of apps blocks → a ∈ apps →
  Log INFO (MInitiating (title a)) ∈ concat blocks.
Proof.
  intros HF Ha. apply list_elem_of_lookup in Ha as [i Hi].
  destruct (Forall2_lookup_l _ _ _ _ _ HF Hi) as (blk & Hblk & Hb).
  apply (elem_of_concat _ blk); [by apply block_begins|].
  by apply list_elem_of_lookup_2 in Hblk.
Qed.

(** C2. In a configured sequence where the establishment of one
    backend fails, its name is recorded in the failed list and the
    loop goes on: every backend after it is attempted and the pass
    returns.  With three backends of which only the second fails, the
    report is succeeded [first, third], failed [second]. *)
Theorem failure_isolation l main t routes before b after :
  mounted routes = before ++ b :: after →
  Forall (λ a, uninterrupted a = true) (mounted routes) →
  establishes b = false →
  let r := main_start urljoin l (sub_lifespans urljoin routes)
             (new_frame main t) in
  r.1 = Ok (Some MainYield)
  ∧ title b ∈ failed_servers r.2
  ∧ (∀ a, a ∈ after → Log INFO (MInitiating (title a)) ∈ trace r.2)
  ∧ (∀ a c, before = [a] → after = [c] →
       establishes a = true → establishes c = true →
       successful_servers r.2 = [title a; title c]
       ∧ failed_servers r.2 = [title b]).
Proof.
  intros Hm Hall Hb. rewrite sub_lifespans_leaves.
  destruct (main_start_spec l (mounted routes) (new_frame main t) Hall)
    as (blocks & cbs & Hblocks & _ & _ & ->).
  cbn [fst snd failed_servers successful_servers trace new_frame
       Datatypes.app].
  split_and!.
  - done.
  - apply list_elem_of_fmap. exists b. split; [done|].
    apply list_elem_of_filter. split; [done|].
    rewrite Hm. apply elem_of_app. right. apply list_elem_of_here.
  - intros a Ha. apply elem_of_app. right. apply elem_of_app. left.
    apply (blocks_attempted (mounted routes)); [done|].
    rewrite Hm. apply elem_of_app. right. by apply list_elem_of_further.
  - intros a c -> -> Ha Hc. rewrite Hm. cbn [Datatypes.app].
    rewrite !filter_cons, !filter_nil, Ha, Hb, Hc.
    by repeat case_decide.
Qed.

(** C3. After an establishment pass that opened the connections
    [A, B, C] in this order, the teardown closes them in the order
    [C, B, A], sessions and transports alike, whatever exception is
    in flight and whatever a release raises: every release is
    attempted.  When the releases raise only [Exception]s and nothing
    is in flight, the teardown itself returns without raising. *)
Theorem teardown_reverse_order l main t routes exc :
  Forall (λ a, uninterrupted a = true) (mounted routes) →
  let started := (main_start urljoin l (sub_lifespans urljoin routes)
                    (new_frame main t)).2 in
  let r := main_resume exc started in
  ∃ δ, trace r.2 = trace started ++ δ
    ∧ transport_releases δ = rev (connections (mounted routes))
    ∧ session_releases δ = rev (connections (mounted routes))
    ∧ (Forall (λ a, releases_ordinarily a = true) (mounted routes) →
       exc = None → r.1 = Ok tt).
Proof.
  intros Hall. rewrite sub_lifespans_leaves.
  destruct (main_start_spec l (mounted routes) (new_frame main t) Hall)
    as (blocks & cbs & _ & Hcl & Hq & ->).
  cbn [fst snd new_frame stack]. rewrite app_nil_r.
  unfold main_resume, aexit_stack, on_trace.
  cbv [mbind M_bind bind get modify clear_stack thrown mret M_ret ret raise].
  cbn [stack trace with_trace app successful_servers failed_servers].
  match goal with |- context [run_callbacks cbs exc ?t0] => set (t1 := t0) end.
  destruct (Hcl exc t1) as (δ & Ht & Htr & Hse).
  destruct (run_callbacks_total cbs exc t1) as [exc' Hok].
  pose proof (λ H, Hq H t1) as Hq1.
  destruct (run_callbacks cbs exc t1) as [[exc1|e] t2] eqn:Hrun; [|done].
  cbn [fst snd] in *. subst t2.
  exists δ. split; [by destruct exc1|]. split; [done|]. split; [done|].
  intros Hrel ->. specialize (Hq1 Hrel). rewrite Hrun in Hq1.
  cbn in Hq1. by injection Hq1 as ->.
Qed.

Lemma in_progress_app t1 t2 n :
  in_progress (t1 ++ t2) n = in_progress t2 (in_progress t1 n).
Proof. revert n. induction t1 as [|e t1 IH]; intros n; [done|]. apply IH. Qed.

Lemma in_progress_quiet δ n : quiet δ → in_progress δ n = n.
Proof.
  induction 1 as [|e δ [Hb Hc] _ IH]; [done|]. cbn. by rewrite Hb, Hc.
Qed.

Lemma completion_completes name fin :
  completion_of name fin → begins fin = false ∧ completes fin = true.
Proof. by intros [->|[->| ->]]. Qed.

Lemma prefix_app_cases_inv (p l1 l2 : list event) :
  p `prefix_of` l1 ++ l2 →
  p `prefix_of` l1 ∨ ∃ p', p = l1 ++ p' ∧ p' `prefix_of` l2.
Proof.
  revert p. induction l1 as [|x l1 IH]; intros p Hp.
  - right. by exists p.
  - destruct p as [|y p]; [left; apply prefix_nil|].
    cbn in Hp. pose proof (prefix_cons_inv_1 _ _ _ _ Hp) as ->.
    apply prefix_cons_inv_2 in Hp. destruct (IH p Hp) as [H|(p' & -> & H)].
    + left. by apply prefix_cons.
    + right. by exists p'.
Qed.

Lemma block_in_progress a blk :
  block_of a blk →
  in_progress blk 0 = 0 ∧ ∀ p, p `prefix_of` blk → (in_progress p 0 ≤ 1)%nat.
Proof.
  intros (mid & fin & -> & Hq & Hfin).
  destruct (completion_completes _ _ Hfin) as [Hb Hc]. split.
  - cbn. rewrite in_progress_app, (in_progress_quiet mid) by done.
    cbn. by rewrite Hb, Hc.
  - intros p Hp. destruct p as [|e p]; [cbn; lia|].
    pose proof (prefix_cons_inv_1 _ _ _ _ Hp) as ->.
    apply prefix_cons_inv_2 in Hp. cbn.
    apply prefix_app_cases_inv in Hp as [[k Hk]|(p' & -> & Hp')].
    + rewrite in_progress_quiet; [lia|].
      unfold quiet in *. rewrite Hk in Hq. by apply Forall_app in Hq as [? _].
    + rewrite in_progress_app, (in_progress_quiet mid) by done.
      destruct p' as [|e' p']; [cbn; lia|].
      pose proof (prefix_cons_inv_1 _ _ _ _ Hp') as ->.
      apply prefix_cons_inv_2, prefix_nil_inv in Hp' as ->.
      cbn. rewrite Hb, Hc. lia.
Qed.

Lemma blocks_in_progress apps blocks :
  Forall2 block_of apps blocks →
  in_progress (concat blocks) 0 = 0
  ∧ ∀ p, p `prefix_of` concat blocks → (in_progress p 0 ≤ 1)%nat.
Proof.
  induction 1 as [|a blk apps blocks Hblk _ [IH0 IH]].
  - split; [done|]. intros p ->%prefix_nil_inv. cbn; lia.
  - destruct (block_in_progress _ _ Hblk) as [H0 Hp]. cbn [concat]. split.
    + by rewrite in_progress_app, H0.
    + intros p [H|(p' & -> & H)]%prefix_app_cases_inv; [by apply Hp|].
      rewrite in_progress_app, H0. by apply IH.
Qed.

(** C4. The establishment loop is sequential: what it appends to the
    trace is one block per backend, in the order of the configuration,
    each block opened by the record that begins the establishment of
    its backend and closed by the record of its success or failure, so
    that the establishment of a backend is complete before the next
    begins; after no prefix of the trace is more than one
    establishment begun and not completed. *)
Theorem sequential_establishment main t routes :
  Forall (λ a, uninterrupted a = true) (mounted routes) →
  ∃ blocks,
    trace (establish (sub_lifespans urljoin routes) (new_frame main t)).2
    = t ++ concat blocks
    ∧ Forall2 block_of (mounted routes) blocks
    ∧ ∀ p, p `prefix_of` concat blocks → (in_progress p 0 ≤ 1)%nat.
Proof.
  intros Hall. rewrite sub_lifespans_leaves.
  destruct (establish_leaves (mounted routes) (new_frame main t) Hall)
    as (_ & _ & _ & _ & (blocks & Htr & Hblocks) & _).
  exists blocks. split; [done|]. split; [done|].
  by apply (blocks_in_progress (mounted routes)).
Qed.

(** C5. When a step of the establishment of a backend fails with an
    [Exception] (no transport for its server type, transport open,
    session, handshake or endpoint registration), the lifespan of its
    sub-application does not raise: it marks the connection as not
    connected, logs the error and returns.  The loop of the main
    application then records the name in the failed list, pushes
    nothing on the exit stack and goes on without raising. *)
Theorem establishment_failure_contained a t f :
  is_main_app (read_locals (state a)) = false →
  ordinary (peer a) = true →
  establishes a = false →
  let g := sub_start (read_locals (state a)) (new_frame a t) in
  let r := attempt (a, lifespan_context urljoin a []) f in
  g.1 = Ok None
  ∧ is_connected (state (app g.2)) = Some false
  ∧ (∃ e δ, trace g.2 = t ++ δ
       ∧ last δ = Some (Log ERROR (MFailedConnect (title (app g.2)) e)))
  ∧ r.1 = Ok tt
  ∧ failed_servers r.2 = failed_servers f ++ [title a]
  ∧ successful_servers r.2 = successful_servers f
  ∧ stack r.2 = stack f.
Proof.
  intros Hmain Hord Hest.
  assert (match select_client (read_locals (state a)) with
          | Ok _ => handshake_ok (peer a) = false
          | Raise _ => True
          end) as Hwhy.
  { unfold establishes, connection in Hest. rewrite Hmain in Hest.
    destruct (select_client _); [|done]. by destruct (handshake_ok _). }
  pose proof (sub_start_spec (read_locals (state a)) (new_frame a t))
    as (δ & Ht & _ & _ & _ & _ & _ & Hres).
  assert (∀ t', lifespan_context urljoin a [] t'
                = (Raise (RuntimeError "generator didn't yield"),
                   trace (sub_start (read_locals (state a))
                            (new_frame a t')).2)) as Hctx.
  { intros t'. rewrite lifespan_context_eq.
    unfold lifespan_start, mbind, M_bind, bind, get.
    cbn [app new_frame]. rewrite Hmain.
    pose proof (sub_start_spec (read_locals (state a)) (new_frame a t'))
      as (δ' & _ & _ & _ & _ & _ & _ & Hres').
    destruct (sub_start _ (new_frame a t')) as [[[p|]|e] f'];
      cbn [fst snd app new_frame] in *.
    - destruct Hres' as (c & Hc & _ & Hok & _). rewrite Hc in Hwhy. congruence.
    - done.
    - destruct Hres' as (_ & Hno & _). congruence. }
  cbv zeta. rewrite attempt_eq, Hctx. cbn [is_Exception fst snd
    failed_servers successful_servers stack].
  destruct (sub_start _ (new_frame a t)) as [[[p|]|e] f'];
    cbn [fst snd app new_frame trace] in *.
  - destruct Hres as (c & Hc & _ & Hok & _). rewrite Hc in Hwhy. congruence.
  - destruct Hres as (_ & Hflag & e & Hlast). split_and!; try done.
    by exists e, δ.
  - destruct Hres as (_ & Hno & _). congruence.
Qed.

(** C8. After all backends have been attempted, the description of
    the gateway is extended with the tools header and one link per
    succeeded backend, made from its name, when the succeeded list is
    not empty, and left as it is otherwise.  With an empty succeeded
    list the pass still returns without raising: the condition is
    reported in the log, by the record that no server could be
    reached and, when backends were configured, by the warning that
    lists the failed ones. *)
Theorem startup_summary l main t routes :
  Forall (λ a, uninterrupted a = true) (mounted routes) →
  let r := main_start urljoin l (sub_lifespans urljoin routes)
             (new_frame main t) in
  r.1 = Ok (Some MainYield)
  ∧ description (app r.2)
    = described urljoin (l_path_prefix l) (successful_servers r.2)
        (description main)
  ∧ (successful_servers r.2 = [] →
     description (app r.2) = description main
     ∧ Log ERROR MNoServers ∈ trace r.2
     ∧ (mounted routes ≠ [] → Log WARNING MFailedHeader ∈ trace r.2)).
Proof.
  intros Hall. rewrite sub_lifespans_leaves.
  destruct (main_start_spec l (mounted routes) (new_frame main t) Hall)
    as (blocks & cbs & _ & _ & _ & ->).
  cbn [fst snd new_frame successful_servers failed_servers app trace
       Datatypes.app].
  destruct main as [ti de ve st pe]. cbn [set_description description].
  split; [done|]. split; [done|].
  intros Hnone. rewrite Hnone. cbn [described]. split; [done|].
  unfold summary_records. cbn [nonempty]. split.
  - rewrite !elem_of_app, !elem_of_cons. naive_solver.
  - intros Hne.
    assert (filter (λ a, establishes a = false) (mounted routes) ≠ []) as Hf.
    { intros Hf. apply Hne.
      pose proof (filter_establishes_length (mounted routes)) as Hlen.
      apply fmap_nil_inv in Hnone. rewrite Hf, Hnone in Hlen. cbn in Hlen.
      apply length_zero_iff_nil. lia. }
    destruct (filter (λ a, establishes a = false) (mounted routes))
      as [|x xs]; [done|].
    cbn [fmap list_fmap nonempty].
    rewrite !elem_of_app, !elem_of_cons. naive_solver.
Qed.

(** C10. A turn of the loop puts the name in the succeeded list
    exactly when entering the lifespan of the sub-application
    returned and the application then has its connected flag set;
    when entering returned and the flag is not set, or when entering
    raised an [Exception], the name goes to the failed list. *)
Theorem connected_flag_decides sub cm f :
  let r := attempt (sub, cm) f in
  match (cm (trace f ++ [Log INFO (MInitiating (title sub))])).1 with
  | Ok (entered, _) =>
      if get_is_connected entered then
        successful_servers r.2 = successful_servers f ++ [title sub]
        ∧ failed_servers r.2 = failed_servers f
      else
        successful_servers r.2 = successful_servers f
        ∧ failed_servers r.2 = failed_servers f ++ [title sub]
  | Raise e =>
      successful_servers r.2 = successful_servers f
      ∧ failed_servers r.2
        = failed_servers f ++ (if is_Exception e then [title sub] else [])
  end.
Proof.
  cbv zeta. rewrite attempt_eq.
  destruct (cm (trace f ++ [Log INFO (MInitiating (title sub))]))
    as [[[entered cb]|e] t']; cbn [fst snd].
  - by destruct (get_is_connected entered).
  - destruct (is_Exception e); cbn; by rewrite ?app_nil_r.
Qed.

End establishment.


(** ** The shutdown coordinator and the run loop *)

Lemma pfor_each_signals sigs p :
  pfor_each sigs handle_signal p
  = (Ok tt,
     {| shutdown_event := shutdown_event p || nonempty sigs;
        tasks := tasks p; should_exit := should_exit p;
        finished := finished p;
        ptrace := ptrace p ++ ((λ s, Log INFO (MReceived s)) <$> sigs) |}).
Proof.
  revert p. induction sigs as [|s sigs IH]; intros [ev ts se fi tr].
  - cbn. by rewrite orb_false_r, app_nil_r.
  - cbn [pfor_each]. unfold mbind, M_bind, bind.
    change (handle_signal s {| shutdown_event := ev; tasks := ts;
              should_exit := se; finished := fi; ptrace := tr |})
      with (Ok tt, {| shutdown_event := true; tasks := ts;
              should_exit := se; finished := fi;
              ptrace := tr ++ [Log INFO (MReceived s)] |}).
    cbv beta iota. rewrite IH. cbn. by rewrite orb_true_r, <- app_assoc.
Qed.

Lemma pfor_each_happen hs p :
  pfor_each hs happen p
  = (Ok tt,
     {| shutdown_event := shutdown_event p || signalled hs;
        tasks := if exited hs then tasks p ∖ {[ server_task ]} else tasks p;
        should_exit := should_exit p;
        finished :=
          if exited hs then finished p ∪ {[ server_task ]} else finished p;
        ptrace := ptrace p ++ signal_records hs |}).
Proof.
  revert p. induction hs as [|h hs IH]; intros [ev ts se fi tr].
  - cbn. by rewrite orb_false_r, app_nil_r.
  - cbn [pfor_each]. unfold mbind, M_bind, bind. destruct h as [s|].
    + change (happen (Signal s) {| shutdown_event := ev; tasks := ts;
                should_exit := se; finished := fi; ptrace := tr |})
        with (Ok tt, {| shutdown_event := true; tasks := ts;
                should_exit := se; finished := fi;
                ptrace := tr ++ [Log INFO (MReceived s)] |}).
      cbv beta iota. rewrite IH. unfold signalled. cbn.
      by rewrite orb_true_r, <- app_assoc.
    + change (happen ServerExits {| shutdown_event := ev; tasks := ts;
                should_exit := se; finished := fi; ptrace := tr |})
        with (Ok tt, {| shutdown_event := ev;
                tasks := ts ∖ {[ server_task ]};
                should_exit := se;
                finished := fi ∪ {[ server_task ]}; ptrace := tr |}).
      cbv beta iota. rewrite IH. unfold signalled. cbn [exited signal_records omap list_omap
        shutdown_event tasks should_exit finished ptrace].
      f_equal. f_equal; destruct (exited hs); set_solver.
Qed.

Lemma something_happened hs :
  hs ≠ [] → exited hs || signalled hs = true.
Proof.
  destruct hs as [|[s|] hs]; [done|..]; intros _; cbn; [|done].
  by rewrite orb_true_r.
Qed.

Lemma tracked_server : elements (∅ ∪ {[ server_task ]} : gset task)
                       = [server_task].
Proof. rewrite (left_id_L ∅ (∪)). apply elements_singleton. Qed.

Lemma tracked_none :
  ((∅ ∪ {[ server_task ]}) ∖ {[ server_task ]} : gset task) = ∅.
Proof. set_solver. Qed.

(** The tasks the wait of line 405 leaves pending. *)
Lemma wait_outcome hs p :
  finished p = ∅ → shutdown_event p = false →
  wait_first_completed [server_task; shutdown_wait_task] hs p
  = (Ok (if exited hs || signalled hs then
           Some ((if exited hs then [server_task] else [])
                 ++ (if signalled hs then [shutdown_wait_task] else []),
                 (if exited hs then [] else [server_task])
                 ++ (if signalled hs then [] else [shutdown_wait_task]))
         else None),
     (pfor_each hs happen p).2).
Proof.
  intros Hfin Hev. unfold wait_first_completed, mbind, M_bind, bind.
  rewrite pfor_each_happen. cbv [get mret M_ret ret]. cbn [fst snd].
  rewrite Hfin, Hev. cbn [orb]. f_equal.
  assert (∀ q, finished q = (if exited hs then ∅ ∪ {[ server_task ]} else ∅) →
               shutdown_event q = signalled hs →
               task_is_done q server_task = exited hs
               ∧ task_is_done q shutdown_wait_task = signalled hs) as Hdone.
  { intros q Hq Hs. unfold task_is_done. rewrite Hq, Hs. split.
    - destruct (exited hs); cbn.
      + rewrite bool_decide_eq_true_2 by set_solver. done.
      + rewrite bool_decide_eq_false_2 by set_solver. done.
    - rewrite (bool_decide_eq_true_2 (shutdown_wait_task = _)) by done.
      rewrite bool_decide_eq_false_2; [done|].
      destruct (exited hs); unfold shutdown_wait_task, server_task; set_solver. }
  match goal with |- context [task_is_done ?q _] =>
    destruct (Hdone q eq_refl eq_refl) as [H1 H2] end.
  rewrite !filter_cons, !filter_nil, H1, H2.
  destruct (exited hs), (signalled hs); by repeat case_decide.
Qed.


(** The run loop from the initial state, once something happens
    during its wait. *)
Lemma run_loop_eq result_of at_wait at_gather :
  at_wait ≠ [] →
  serve_until_shutdown result_of at_wait at_gather initial
  = (Ok ShutDown,
     {| shutdown_event := true;
        tasks := ∅;
        should_exit := true;
        finished := {[ server_task ]};
        ptrace :=
          [CreateTask server_task; CreateTask shutdown_wait_task]
          ++ signal_records at_wait
          ++ (if exited at_wait then [Log WARNING MServerExited] else [])
          ++ (Cancel <$> (if exited at_wait then [] else [server_task])
                         ++ (if signalled at_wait then []
                             else [shutdown_wait_task]))
          ++ [Log INFO MInitiatingShutdown; SetShouldExit]
          ++ (if exited at_wait then []
              else [Cancel server_task; Gather [server_task]]
                   ++ ((λ s, Log INFO (MReceived s)) <$> at_gather))
          ++ [Log INFO MShutdownComplete] |}).
Proof.
  intros Hne%something_happened.
  unfold serve_until_shutdown.
  unfold try_finally, try_except, try_except_base.
  unfold mbind at 1, M_bind at 1, bind at 1.
  change (pemit (CreateTask server_task) initial)
    with (Ok tt, {| shutdown_event := false; tasks := ∅; should_exit := false;
                    finished := ∅; ptrace := [CreateTask server_task] |}).
  cbv beta iota.
  unfold mbind at 1, M_bind at 1, bind at 1.
  match goal with |- context [track_task server_task ?p] =>
    change (track_task server_task p)
      with (Ok tt, {| shutdown_event := false; tasks := ∅ ∪ {[ server_task ]};
                      should_exit := false; finished := ∅;
                      ptrace := [CreateTask server_task] |}) end.
  cbv beta iota.
  unfold mbind at 1, M_bind at 1, bind at 1.
  match goal with |- context [pemit (CreateTask shutdown_wait_task) ?p] =>
    change (pemit (CreateTask shutdown_wait_task) p)
      with (Ok tt, {| shutdown_event := false; tasks := ∅ ∪ {[ server_task ]};
                      should_exit := false; finished := ∅;
                      ptrace := [CreateTask server_task;
                                 CreateTask shutdown_wait_task] |}) end.
  cbv beta iota.
  unfold mbind at 1, M_bind at 1, bind at 1.
  rewrite wait_outcome by done. rewrite Hne, pfor_each_happen.
  cbn [fst snd shutdown_event tasks should_exit finished ptrace orb].
  destruct (exited at_wait) eqn:Hex.
  - rewrite bool_decide_eq_true_2 by (cbn; set_solver).
    rewrite tracked_none, (left_id_L ∅ (∪)).
    destruct (signalled at_wait);
      cbn [pfor_each Datatypes.app fmap list_fmap];
      run_process; cbn [shutdown_event tasks should_exit finished ptrace
                        pfor_each];
      rewrite elements_empty;
      rewrite (bool_decide_eq_false_2 (∅ ≠ ∅)) by (intros H; by apply H);
      cbn [pfor_each]; run_process;
      cbn [shutdown_event tasks should_exit finished ptrace];
      rewrite <- ?app_assoc; reflexivity.
  - cbn [orb] in Hne. rewrite Hne.
    rewrite bool_decide_eq_false_2 by (cbn; set_solver).
    cbn [pfor_each Datatypes.app fmap list_fmap].
    run_process. cbn [shutdown_event tasks should_exit finished ptrace
                      pfor_each].
    rewrite tracked_server.
    rewrite (bool_decide_eq_true_2 (∅ ∪ {[server_task]} ≠ ∅)) by set_solver.
    cbn [pfor_each]. unfold task_is_done.
    cbn [shutdown_event tasks should_exit finished ptrace].
    rewrite (bool_decide_eq_false_2 (server_task ∈ ∅)) by set_solver.
    rewrite (bool_decide_eq_false_2 (server_task = shutdown_wait_task))
      by done.
    cbn [orb andb]. run_process.
    unfold gather_return_exceptions. run_process.
    rewrite pfor_each_signals.
    cbn [shutdown_event tasks should_exit finished ptrace pfor_each].
    run_process. cbn [shutdown_event tasks should_exit finished ptrace].
    rewrite tracked_none, (left_id_L ∅ (∪)).
    rewrite <- ?app_assoc. reflexivity.
Qed.

(** C7. The run loop waits for the first of two tasks, the serving
    task and the wait on the shutdown event, and goes on to the
    shutdown as soon as something completes one of them.  When the
    serving task is among the completed, a warning is logged and the
    event is set.  Then the task still pending is cancelled, the
    server is told to exit, every tracked task that is not done is
    cancelled, and the tracked tasks are gathered with their
    exceptions returned as values: whatever their results, the loop
    ends without raising. *)
Theorem run_loop_shutdown result_of at_wait at_gather :
  at_wait ≠ [] →
  let r := serve_until_shutdown result_of at_wait at_gather initial in
  r.1 = Ok ShutDown
  ∧ shutdown_event r.2 = true
  ∧ should_exit r.2 = true
  ∧ tasks r.2 = ∅
  ∧ ptrace r.2
    = [CreateTask server_task; CreateTask shutdown_wait_task]
      ++ signal_records at_wait
      ++ (if exited at_wait then [Log WARNING MServerExited] else [])
      ++ (Cancel <$> (if exited at_wait then [] else [server_task])
                     ++ (if signalled at_wait then []
                         else [shutdown_wait_task]))
      ++ [Log INFO MInitiatingShutdown; SetShouldExit]
      ++ (if exited at_wait then []
          else [Cancel server_task; Gather [server_task]]
               ++ ((λ s, Log INFO (MReceived s)) <$> at_gather))
      ++ [Log INFO MShutdownComplete].
Proof.
  intros Hne. cbv zeta. by rewrite run_loop_eq.
Qed.


Lemma shutdown_sequences_app t1 t2 :
  shutdown_sequences (t1 ++ t2)
  = shutdown_sequences t1 + shutdown_sequences t2.
Proof. unfold shutdown_sequences. by rewrite filter_app, length_app. Qed.

Lemma shutdown_sequences_signals hs :
  shutdown_sequences (signal_records hs) = 0.
Proof.
  induction hs as [|[s|] hs IH]; [done| |done].
  change (signal_records (Signal s :: hs))
    with (Log INFO (MReceived s) :: signal_records hs).
  unfold shutdown_sequences in *. rewrite filter_cons.
  by case_decide.
Qed.

Lemma shutdown_sequences_received sigs :
  shutdown_sequences ((λ s, Log INFO (MReceived s)) <$> sigs) = 0.
Proof.
  induction sigs as [|s sigs IH]; [done|].
  unfold shutdown_sequences in *. rewrite fmap_cons, filter_cons.
  by case_decide.
Qed.

(** C6, the counterexample: a second invocation of the handler on a
    coordinator that is already signalled changes the state of the
    process, it logs once more. *)
Lemma second_signal_is_logged :
  let p := (handle_signal SIGTERM initial).2 in
  shutdown_event p = true
  ∧ (handle_signal SIGTERM p).2 ≠ p
  ∧ ptrace (handle_signal SIGTERM p).2
    = ptrace p ++ [Log INFO (MReceived SIGTERM)].
Proof.
  cbv zeta. split; [done|]. split; [|done].
  intros H. apply (f_equal ptrace) in H. cbn in H. discriminate H.
Qed.

(** C6, as amended. Every invocation of the handler logs one record
    and sets the shutdown flag, and does nothing else: tracked tasks,
    the exit flag of the server and the completed tasks are as
    before.  On a coordinator that is already signalled the flag
    stays set, so an invocation changes only the log; and a run in
    which the handler is invoked twice in succession, and any number
    of times afterwards, goes through the shutdown sequence exactly
    once. *)
Theorem signal_handler_idempotent sig sig' p result_of rest at_gather :
  let q := (handle_signal sig p).2 in
  let q' := (handle_signal sig' q).2 in
  (handle_signal sig p).1 = Ok tt
  ∧ shutdown_event q = true
  ∧ tasks q = tasks p ∧ should_exit q = should_exit p
  ∧ finished q = finished p
  ∧ ptrace q = ptrace p ++ [Log INFO (MReceived sig)]
  ∧ shutdown_event q' = true
  ∧ tasks q' = tasks q ∧ should_exit q' = should_exit q
  ∧ finished q' = finished q
  ∧ ptrace q' = ptrace q ++ [Log INFO (MReceived sig')]
  ∧ shutdown_sequences
      (ptrace (serve_until_shutdown result_of
                 (Signal sig :: Signal sig' :: rest) at_gather initial).2)
    = 1.
Proof.
  cbv zeta. split_and!; try done.
  rewrite run_loop_eq by done. cbn [snd ptrace].
  rewrite !shutdown_sequences_app, shutdown_sequences_signals.
  destruct (exited _), (signalled _);
    rewrite ?shutdown_sequences_app, ?shutdown_sequences_received;
    reflexivity.
Qed.


(** C9. When no server command is given and the configuration file,
    if there is one, has no [mcpServers] entry, [run] raises before
    it creates the serving task: its trace holds configuration
    records only, no establishment is begun and nothing is awaited at
    a backend.  The error is one of the two configuration errors of
    [run], or, for a stream server type, the failed read of the
    missing URL, or what reading the configuration file raised. *)
Theorem no_backends_no_attempt env kw result_of at_wait at_gather :
  kw_server_command kw = None ∨ kw_server_command kw = Some [] →
  (∀ path config,
     kw_config_path kw = Some path → json_load env path = Ok config →
     mcpServers config = None ∨ mcpServers config = Some []) →
  let r := run env kw result_of at_wait at_gather initial in
  ∃ e, r.1 = Raise e
    ∧ Forall (λ ev, no_attempt ev = true) (ptrace r.2)
    ∧ (e = ValueError "No 'mcpServers' found in config file."
       ∨ e = ValueError "You must provide either server_command or config."
       ∨ (is_stream_type (default "" (kw_server_type kw)) = true
          ∧ (e = TypeError "'NoneType' object is not subscriptable"
             ∨ e = IndexError "list index out of range"))
       ∨ ∃ path, kw_config_path kw = Some path
                 ∧ json_load env path = Raise e).
Proof.
  intros Hcmd Hcfg. cbv zeta. unfold run, configure.
  destruct kw as [ty cmd path name desc ver prefix timeout].
  cbn [kw_server_type kw_server_command kw_config_path kw_path_prefix
       kw_connection_timeout] in *.
  assert (∀ m e, (plog ERROR m ;; raise e
                    : M process (fastapi * list route)) initial
                 = (Raise e, {| shutdown_event := false; tasks := ∅;
                      should_exit := false; finished := ∅;
                      ptrace := [Log ERROR m] |})) as Hraise by done.
  destruct (bool_decide (ty = Some "sse")) eqn:Hsse;
    [|destruct (bool_decide (ty = Some "streamablehttp")
                || bool_decide (ty = Some "streamable_http")) eqn:Hstr].
  - apply bool_decide_eq_true in Hsse as ->.
    destruct Hcmd as [-> | ->]; eexists; (split; [reflexivity|]);
      (split; [constructor|]); right; right; left; split; eauto.
  - assert (is_stream_type (default "" ty) = true) as Hty.
    { apply orb_true_iff in Hstr as [->%bool_decide_eq_true
                                    | ->%bool_decide_eq_true]; done. }
    destruct Hcmd as [-> | ->]; eexists; (split; [reflexivity|]);
      (split; [constructor|]); right; right; left; split; eauto.
  - destruct path as [path|].
    2: { destruct Hcmd as [-> | ->]; unfold mbind at 1, M_bind at 1, bind at 1;
           rewrite Hraise; eexists; (split; [reflexivity|]);
           (split; [by repeat constructor|]); eauto. }
    destruct (truthy path) eqn:Hpath.
    2: { destruct Hcmd as [-> | ->]; unfold mbind at 1, M_bind at 1, bind at 1;
           rewrite Hraise; eexists; (split; [reflexivity|]);
           (split; [by repeat constructor|]); eauto. }
    assert (∃ e, (json_load env path = Raise e
                  ∨ e = ValueError "No 'mcpServers' found in config file.")
            ∧ ∀ k : fastapi * list route → M process (fastapi * list route * ending),
              ((plog INFO (MLoadingConfig path) ;;
                 config ← lift (json_load env path);
                 match mcpServers config with
                 | Some (entry :: entries) =>
                     plog INFO MConfiguringServers ;;
                     mret (new_main_app env
                             {| kw_server_type := ty; kw_server_command := cmd;
                                kw_config_path := Some path; kw_name := name;
                                kw_description := desc; kw_version := ver;
                                kw_path_prefix := prefix;
                                kw_connection_timeout := timeout |},
                           mount_server env (or_default prefix "/") timeout
                             <$> (entry :: entries))
                 | _ =>
                     plog ERROR (MNoServersInConfig path) ;;
                     raise (ValueError "No 'mcpServers' found in config file.")
                 end) ≫= k) initial
              = (Raise e,
                 {| shutdown_event := false; tasks := ∅;
                    should_exit := false; finished := ∅;
                    ptrace :=
                      Log INFO (MLoadingConfig path)
                      :: match json_load env path with
                         | Ok _ => [Log ERROR (MNoServersInConfig path)]
                         | Raise _ => []
                         end |})) as (e & He & Hrun).
    { destruct (json_load env path) as [config|e] eqn:Hload.
      - exists (ValueError "No 'mcpServers' found in config file.").
        split; [by right|]. intros k.
        cbv [mbind M_bind bind lift plog pemit modify initial ptrace].
        by destruct (Hcfg path config eq_refl Hload) as [-> | ->].
      - exists e. split; [by left|]. intros k.
        by cbv [mbind M_bind bind lift plog pemit modify initial ptrace]. }
    exists e. destruct Hcmd as [-> | ->]; rewrite Hrun; cbn [fst snd ptrace].
    all: split; [reflexivity|]; split;
         [destruct (json_load env path); by repeat constructor|].
    all: destruct He as [He| ->]; eauto 10.
Qed.


(** * The statements on the sample configuration *)

(** C1 on the sample configuration: K = 2 of N = 3. *)
Lemma establishment_report_witness :
  Forall (λ a, uninterrupted a = true) (mounted sample_routes)
  ∧ let r := main_start sample_urljoin (read_locals (state sample_main))
               (sub_lifespans sample_urljoin sample_routes)
               (new_frame sample_main []) in
    let K := length (filter (λ a, establishes a = true)
                       (mounted sample_routes)) in
    r.1 = Ok (Some MainYield)
    ∧ successful_servers r.2
      = title <$> filter (λ a, establishes a = true) (mounted sample_routes)
    ∧ failed_servers r.2
      = title <$> filter (λ a, establishes a = false) (mounted sample_routes)
    ∧ length (successful_servers r.2) = K
    ∧ length (failed_servers r.2) = length (mounted sample_routes) - K.
Proof.
  split; [repeat constructor|].
  apply (establishment_report sample_urljoin). repeat constructor.
Defined.

(** C2 on the sample configuration: the second of three fails. *)
Lemma failure_isolation_witness :
  let r := main_start sample_urljoin (read_locals (state sample_main))
             (sub_lifespans sample_urljoin sample_routes)
             (new_frame sample_main []) in
  r.1 = Ok (Some MainYield)
  ∧ title sample_second ∈ failed_servers r.2
  ∧ (∀ a, a ∈ [sample_third] →
      Log INFO (MInitiating (title a)) ∈ trace r.2)
  ∧ (∀ a c, [sample_first] = [a] → [sample_third] = [c] →
       establishes a = true → establishes c = true →
       successful_servers r.2 = [title a; title c]
       ∧ failed_servers r.2 = [title sample_second]).
Proof.
  apply (failure_isolation sample_urljoin _ sample_main [] sample_routes
           [sample_first] sample_second [sample_third]).
  - reflexivity.
  - repeat constructor.
  - reflexivity.
Defined.

(** C3 on the sample configuration: the third is closed before the
    first. *)
Lemma teardown_reverse_order_witness :
  let started := (main_start sample_urljoin (read_locals (state sample_main))
                    (sub_lifespans sample_urljoin sample_routes)
                    (new_frame sample_main [])).2 in
  let r := main_resume None started in
  ∃ δ, trace r.2 = trace started ++ δ
    ∧ transport_releases δ = rev (connections (mounted sample_routes))
    ∧ session_releases δ = rev (connections (mounted sample_routes))
    ∧ (Forall (λ a, releases_ordinarily a = true) (mounted sample_routes) →
       (None : option exn) = None → r.1 = Ok tt).
Proof.
  apply (teardown_reverse_order sample_urljoin _ sample_main [] sample_routes
           None).
  repeat constructor.
Defined.

(** C4 on the sample configuration. *)
Lemma sequential_establishment_witness :
  ∃ blocks,
    trace (establish (sub_lifespans sample_urljoin sample_routes)
             (new_frame sample_main [])).2
    = [] ++ concat blocks
    ∧ Forall2 block_of (mounted sample_routes) blocks
    ∧ ∀ p, p `prefix_of` concat blocks → (in_progress p 0 ≤ 1)%nat.
Proof.
  apply (sequential_establishment sample_urljoin sample_main [] sample_routes).
  repeat constructor.
Defined.

(** C5 on the second backend of the sample configuration, whose
    handshake fails. *)
Lemma establishment_failure_contained_witness :
  let g := sub_start (read_locals (state sample_second))
             (new_frame sample_second []) in
  let r := attempt (sample_second,
                    lifespan_context sample_urljoin sample_second [])
             (new_frame sample_main []) in
  g.1 = Ok None
  ∧ is_connected (state (app g.2)) = Some false
  ∧ (∃ e δ, trace g.2 = [] ++ δ
       ∧ last δ = Some (Log ERROR (MFailedConnect (title (app g.2)) e)))
  ∧ r.1 = Ok tt
  ∧ failed_servers r.2
    = failed_servers (new_frame sample_main []) ++ [title sample_second]
  ∧ successful_servers r.2 = successful_servers (new_frame sample_main [])
  ∧ stack r.2 = stack (new_frame sample_main []).
Proof.
  apply (establishment_failure_contained sample_urljoin sample_second []
           (new_frame sample_main [])); reflexivity.
Defined.

(** C7 when a termination signal arrives first. *)
Lemma run_loop_shutdown_witness :
  let r := serve_until_shutdown (λ _, Raise CancelledError)
             [Signal SIGTERM] [] initial in
  r.1 = Ok ShutDown
  ∧ shutdown_event r.2 = true
  ∧ should_exit r.2 = true
  ∧ tasks r.2 = ∅
  ∧ ptrace r.2
    = [CreateTask server_task; CreateTask shutdown_wait_task]
      ++ signal_records [Signal SIGTERM]
      ++ (if exited [Signal SIGTERM] then [Log WARNING MServerExited] else [])
      ++ (Cancel <$> (if exited [Signal SIGTERM] then [] else [server_task])
                     ++ (if signalled [Signal SIGTERM] then []
                         else [shutdown_wait_task]))
      ++ [Log INFO MInitiatingShutdown; SetShouldExit]
      ++ (if exited [Signal SIGTERM] then []
          else [Cancel server_task; Gather [server_task]]
               ++ ((λ s, Log INFO (MReceived s)) <$> []))
      ++ [Log INFO MShutdownComplete].
Proof.
  apply (run_loop_shutdown (λ _, Raise CancelledError) [Signal SIGTERM] []).
  discriminate.
Defined.

(** C8 on the sample configuration. *)
Lemma startup_summary_witness :
  let r := main_start sample_urljoin (read_locals (state sample_main))
             (sub_lifespans sample_urljoin sample_routes)
             (new_frame sample_main []) in
  r.1 = Ok (Some MainYield)
  ∧ description (app r.2)
    = described sample_urljoin (l_path_prefix (read_locals (state sample_main)))
        (successful_servers r.2) (description sample_main)
  ∧ (successful_servers r.2 = [] →
     description (app r.2) = description sample_main
     ∧ Log ERROR MNoServers ∈ trace r.2
     ∧ (mounted sample_routes ≠ [] → Log WARNING MFailedHeader ∈ trace r.2)).
Proof.
  apply (startup_summary sample_urljoin _ sample_main [] sample_routes).
  repeat constructor.
Defined.

(** C9 on a configuration file without servers. *)
Lemma no_backends_no_attempt_witness :
  let r := run empty_env sample_kwargs (λ _, Ok tt) [Signal SIGINT] []
             initial in
  ∃ e, r.1 = Raise e
    ∧ Forall (λ ev, no_attempt ev = true) (ptrace r.2)
    ∧ (e = ValueError "No 'mcpServers' found in config file."
       ∨ e = ValueError "You must provide either server_command or config."
       ∨ (is_stream_type (default "" (kw_server_type sample_kwargs)) = true
          ∧ (e = TypeError "'NoneType' object is not subscriptable"
             ∨ e = IndexError "list index out of range"))
       ∨ ∃ path, kw_config_path sample_kwargs = Some path
                 ∧ json_load empty_env path = Raise e).
Proof.
  apply (no_backends_no_attempt empty_env sample_kwargs).
  - left. reflexivity.
  - intros path config _ H. injection H as <-. right. reflexivity.
Defined.


(** An entry of the configuration with neither a command nor a URL:
    entering the lifespan of its sub-application returns, but the
    connected flag is not set; the loop records it as failed, and its
    context is on the exit stack. *)
Example unconfigured_entry_is_failed :
  let cm := lifespan_context sample_urljoin unconfigured [] in
  let r := attempt (unconfigured, cm) (new_frame sample_main []) in
  match (cm [Log INFO (MInitiating "blank")]).1 with
  | Ok (entered, _) => get_is_connected entered = false
  | Raise _ => False
  end
  ∧ r.1 = Ok tt
  ∧ successful_servers r.2 = []
  ∧ failed_servers r.2 = ["blank"]
  ∧ length (stack r.2) = 1
  ∧ trace r.2
    = [Log INFO (MInitiating "blank"); Log INFO MSummaryHeader;
       Log INFO MSummaryFooter; Log ERROR MNoServers;
       Log WARNING (MNotConnected "blank")].
Proof. vm_compute. by repeat split. Qed.

(** The sample configuration from its three entries to the report and
    the description of the gateway. *)
Example sample_report :
  let r := main_start sample_urljoin (read_locals (state sample_main))
             (sub_lifespans sample_urljoin sample_routes)
             (new_frame sample_main []) in
  r.1 = Ok (Some MainYield)
  ∧ successful_servers r.2 = ["first"; "third"]
  ∧ failed_servers r.2 = ["second"]
  ∧ description (app r.2)
    = "Automatically generated API from MCP Tool Schemas"
        +:+ tools_header
        +:+ newline +:+ "    - [first](/first/docs)"
        +:+ newline +:+ "    - [third](/third/docs)"
  ∧ transport_releases (trace (main_resume None r.2).2)
    = [stdio_client "nope" []; stdio_client "npx" []; stdio_client "uvx" []].
Proof. vm_compute. by repeat split. Qed.

(** [run] on the sample configuration builds the sample main
    application, which takes the main branch of [lifespan], and
    mounts the three sub-applications in the order of the file. *)
Example sample_configuration :
  (configure sample_env sample_kwargs initial).1
  = Ok (sample_main, sample_routes)
  ∧ is_main_app (read_locals (state sample_main)) = true
  ∧ mounted sample_routes = [sample_first; sample_second; sample_third]
  ∧ Forall (λ a, is_main_app (read_locals (state a)) = false)
      (mounted sample_routes).
Proof. split_and!; [reflexivity..|]. by repeat constructor. Qed.


(** * Further properties *)

(** ** One establishment *)

(** X1. The steps of an establishment are awaited in a fixed order,
    all on the transport selected for the server type, none of them
    twice and none skipped: what was awaited is a prefix of transport,
    session, handshake, tools, resource templates, resources.  When
    the generator reaches its [yield], all six were awaited and
    nothing was closed. *)
Theorem establishment_steps_in_order l f :
  ∃ δ, trace (sub_start l f).2 = trace f ++ δ
    ∧ enter_calls δ `prefix_of` establishment_steps
    ∧ (∀ c, c ∈ awaited δ → select_client l = Ok c)
    ∧ (∀ p, (sub_start l f).1 = Ok (Some p) →
         enter_calls δ = establishment_steps ∧ release_calls δ = []).
Proof.
  destruct f as [[ti de ve [sty cmd ar ct pp ic hs]
                    [te se ini rt rrt rr sx tx]] t su fa sk].
  unfold sub_start.
  destruct (select_client l) as [c|e0] eqn:Hc.
  - run_monad. repeat step_oracle.
    all: eexists; split; [rewrite <- ?app_assoc; simpl; reflexivity |].
    all: split; [cbn; repeat apply prefix_cons; apply prefix_nil|].
    all: split; [cbn; intros c' Hc'; repeat (apply elem_of_cons in Hc' as [->|Hc']; [done|]); by apply elem_of_nil in Hc'|].
    all: intros p Hp; by simplify_eq.
  - pose proof (select_client_raises _ _ Hc) as He0.
    run_monad. rewrite He0.
    eexists; split; [rewrite <- ?app_assoc; simpl; reflexivity |].
    split; [apply prefix_nil|]. split; [cbn; set_solver|]. done.
Qed.

(** X2. An establishment that does not reach its [yield] closes what
    it opened, the session before the transport, and nothing else:
    the transport is closed exactly when it was opened, the session
    exactly when both were opened. *)
Theorem failed_establishment_releases l f :
  (∀ p, (sub_start l f).1 ≠ Ok (Some p)) →
  ∃ δ, trace (sub_start l f).2 = trace f ++ δ
    ∧ release_calls δ
      = match select_client l with
        | Ok _ =>
            (if returns (transport_enter (peer (app f)))
                && returns (session_enter (peer (app f)))
             then [SessionExit] else [])
            ++ (if returns (transport_enter (peer (app f)))
                then [TransportExit] else [])
        | Raise _ => []
        end.
Proof.
  destruct f as [[ti de ve [sty cmd ar ct pp ic hs]
                    [te se ini rt rrt rr sx tx]] t su fa sk].
  unfold sub_start.
  destruct (select_client l) as [c|e0] eqn:Hc.
  - run_monad. repeat step_oracle.
    all: intros Hno.
    all: try (by destruct (Hno (SubYield c))).
    all: eexists; split; [rewrite <- ?app_assoc; simpl; reflexivity |].
    all: reflexivity.
  - pose proof (select_client_raises _ _ Hc) as He0.
    run_monad. rewrite He0. intros _.
    eexists; split; [rewrite <- ?app_assoc; simpl; reflexivity |]. done.
Qed.



Section further.

Variable urljoin : string → string → string.

(** X4. When registration fails after a handshake in which the
    backend reported a name, the two error records of the failure
    name the server differently: the sub-application logs it under
    the reported name, to which it was renamed, and the loop of the
    main application under the configured title, which is also the
    name in the failed list. *)
Theorem failure_after_rename a f c r si e :
  is_main_app (read_locals (state a)) = false →
  select_client (read_locals (state a)) = Ok c →
  transport_enter (peer a) = None → session_enter (peer a) = None →
  initialize (peer a) = Ok r → serverInfo r = Some si →
  truthy (si_name si) = true →
  register_tools (peer a) = Some e → is_Exception e = true →
  session_exit (peer a) = None → transport_exit (peer a) = None →
  let res := attempt (a, lifespan_context urljoin a []) f in
  res.1 = Ok tt
  ∧ failed_servers res.2 = failed_servers f ++ [title a]
  ∧ Log ERROR (MFailedConnect (si_name si) e) ∈ trace res.2
  ∧ Log ERROR (MFailedEstablish (title a)) ∈ trace res.2.
Proof.
  intros Hmain Hc Hte Hse Hini Hsi Hname Hrt He Hsx Htx. cbv zeta.
  rewrite attempt_eq, lifespan_context_eq.
  unfold lifespan_start, mbind, M_bind, bind, get.
  cbn [app new_frame]. rewrite Hmain.
  destruct a as [ti de ve st [te se ini rt rrt rr sx tx]].
  cbn [peer title state transport_enter session_enter initialize
       register_tools session_exit transport_exit] in *. subst.
  destruct r as [si' ins]. cbn [serverInfo] in Hsi. subst si'.
  unfold sub_start, new_frame. rewrite Hc. run_monad.
  unfold str_or. rewrite Hname.
  destruct (truthy_opt ins); rewrite He; cbn [is_Exception fst snd];
    (split; [done|]); (split; [done|]);
    rewrite !elem_of_app, !elem_of_cons; naive_solver.
Qed.


(** ** From a configuration entry to its transport *)

Lemma endswith_slash_app url : endswith_slash (url +:+ "/") = true.
Proof.
  induction url as [|ch url IH]; [done|].
  change (String ch url +:+ "/") with (String ch (url +:+ "/")).
  destruct (url +:+ "/") eqn:Hu; [by destruct url|].
  exact IH.
Qed.

(** X5. An entry of the configuration file takes the main branch of
    [lifespan], in which nothing is connected, exactly when it has
    neither a command nor a usable URL. *)
Theorem entry_without_transport timeout cfg :
  is_main_app (read_locals (sub_app_state timeout cfg))
  = negb (truthy_opt (cfg_command cfg)) && negb (usable_url cfg).
Proof.
  unfold sub_app_state, usable_url, is_main_app, read_locals.
  destruct cfg as [cmd ar ty url]. cbn [cfg_command cfg_args cfg_type cfg_url].
  assert (is_stream_type "sse" = true) as Hs1 by (by vm_compute).
  assert (is_stream_type "streamablehttp" = true) as Hs2 by (by vm_compute).
  assert (is_stream_type "stdio" = false) as Hs3 by (by vm_compute).
  generalize (bool_decide (ty = Some "sse")),
    (bool_decide (ty = Some "streamablehttp")),
    (bool_decide (ty = Some "streamable_http")), (truthy_opt ty),
    (truthy (default "" url)).
  intros b1 b2 b3 b4 bu.
  destruct (truthy_opt cmd) eqn:Hcmd, bu, b1, b2, b3, b4;
    cbn -[is_stream_type]; rewrite ?Hcmd, ?Hs1, ?Hs2, ?Hs3; reflexivity.
Qed.


(** X7. With a streamable HTTP type the entry is reached through the
    streamable HTTP client, a command notwithstanding, on a URL that
    ends in a slash: the URL of the entry when it ends in one, and
    that URL with a slash added otherwise. *)
Theorem streamable_entry_transport timeout cfg :
  truthy (default "" (cfg_url cfg)) = true →
  streamable_type cfg = true →
  ∃ url,
    select_client (read_locals (sub_app_state timeout cfg))
    = Ok (streamablehttp_client url)
    ∧ endswith_slash url = true
    ∧ (url = default "" (cfg_url cfg)
       ∨ url = default "" (cfg_url cfg) +:+ "/"
         ∧ endswith_slash (default "" (cfg_url cfg)) = false).
Proof.
  unfold streamable_type, sub_app_state, read_locals, select_client.
  destruct cfg as [cmd ar ty url]. cbn [cfg_command cfg_args cfg_type cfg_url].
  intros Hurl Hstr. rewrite Hurl, Hstr.
  assert (bool_decide (ty = Some "sse") = false) as ->.
  { apply bool_decide_eq_false. intros ->.
    apply orb_true_iff in Hstr as [H|H]; by apply bool_decide_eq_true in H. }
  cbn [andb].
  destruct (endswith_slash (default "" url)) eqn:Hs; cbn.
  - eexists. split; [reflexivity|]. split; [done|]. by left.
  - eexists. split; [reflexivity|]. split; [apply endswith_slash_app|].
    by right.
Qed.

(** X8. Without a usable URL, an entry with a command is reached
    through the stdio client with that command and the arguments of
    the entry, none when the entry has no [args]. *)
Theorem stdio_entry_transport timeout cfg cmd :
  usable_url cfg = false →
  cfg_command cfg = Some cmd → truthy cmd = true →
  select_client (read_locals (sub_app_state timeout cfg))
  = Ok (stdio_client cmd (default [] (cfg_args cfg))).
Proof.
  unfold usable_url, sub_app_state, read_locals, select_client.
  destruct cfg as [c ar ty url]. cbn [cfg_command cfg_args cfg_type cfg_url].
  intros Hno -> Hcmd. cbn [truthy_opt]. rewrite Hcmd.
  destruct (truthy (default "" url)) eqn:Hurl; cbn [andb] in *.
  - apply orb_false_iff in Hno as [Hno H4].
    apply orb_false_iff in Hno as [Hno H3].
    apply orb_false_iff in Hno as [H1 H2].
    by rewrite H1, H2, H3, H4.
  - by rewrite !andb_false_r.
Qed.


Lemma entry_main_branch timeout cfg :
  truthy_opt (cfg_command cfg) = false → usable_url cfg = false →
  is_main_app (read_locals (sub_app_state timeout cfg)) = true
  ∧ is_connected (sub_app_state timeout cfg) = None.
Proof.
  unfold sub_app_state, usable_url, is_main_app, read_locals.
  destruct cfg as [cmd ar ty url]. cbn [cfg_command cfg_args cfg_type cfg_url].
  intros Hcmd. rewrite Hcmd.
  assert (is_stream_type "stdio" = false) as Hs3 by (by vm_compute).
  generalize (bool_decide (ty = Some "sse")),
    (bool_decide (ty = Some "streamablehttp")),
    (bool_decide (ty = Some "streamable_http")), (truthy_opt ty),
    (truthy (default "" url)).
  intros b1 b2 b3 b4 bu.
  destruct bu, b1, b2, b3, b4; cbn -[is_stream_type]; intros H;
    try discriminate H; rewrite ?Hs3; done.
Qed.

(** X9. An entry with neither a command nor a usable URL is never
    connected: the loop awaits nothing for it at any backend, finds
    its connected flag not set and records it as failed, and goes on;
    its lifespan context, entered all the same, is on the exit
    stack. *)
Theorem unconnected_entry_is_failed env prefix timeout entry f :
  truthy_opt (cfg_command entry.2) = false →
  usable_url entry.2 = false →
  ∃ a path δ,
    mount_server env prefix timeout entry = Mount path (FastAPIApp a)
    ∧ (attempt (a, lifespan_context urljoin a []) f).1 = Ok tt
    ∧ trace (attempt (a, lifespan_context urljoin a []) f).2 = trace f ++ δ
    ∧ awaited δ = []
    ∧ successful_servers (attempt (a, lifespan_context urljoin a []) f).2
      = successful_servers f
    ∧ failed_servers (attempt (a, lifespan_context urljoin a []) f).2
      = failed_servers f ++ [entry.1]
    ∧ length (stack (attempt (a, lifespan_context urljoin a []) f).2)
      = S (length (stack f)).
Proof.
  intros Hcmd Hurl.
  destruct (entry_main_branch timeout entry.2 Hcmd Hurl) as [Hmain Hflag].
  eexists _, _, _. split; [reflexivity|].
  rewrite attempt_eq, lifespan_context_eq.
  unfold lifespan_start, mbind, M_bind, bind, get.
  cbn [app new_frame state title]. rewrite Hmain.
  rewrite main_start_no_mounts by done.
  unfold get_is_connected.
  cbn [fst snd app with_trace state trace successful_servers failed_servers
       stack title new_frame]. rewrite Hflag.
  cbn [default fst snd app with_trace state trace successful_servers
       failed_servers stack title length new_frame].
  split; [done|]. split; [by rewrite <- !app_assoc|]. done.
Qed.

Lemma select_stdio l c :
  l_server_type l = "stdio" → l_command l = Some c →
  select_client l = Ok (stdio_client c (l_args l)).
Proof. intros H1 H2. unfold select_client. by rewrite H1, H2. Qed.

Lemma select_sse l url rest :
  l_server_type l = "sse" → l_args l = url :: rest →
  select_client l = Ok (sse_client url (sse_read_timeout_of l)).
Proof.
  intros H1 H2. unfold select_client. rewrite H1, H2.
  by rewrite (bool_decide_eq_false_2 ("sse" = "stdio")) by done.
Qed.

Lemma select_streamable l url rest :
  l_server_type l = "streamablehttp" → l_args l = url :: rest →
  select_client l = Ok (streamablehttp_client url).
Proof.
  intros H1 H2. unfold select_client. rewrite H1, H2.
  rewrite (bool_decide_eq_false_2 ("streamablehttp" = "stdio")) by done.
  by rewrite (bool_decide_eq_false_2 ("streamablehttp" = "sse")) by done.
Qed.

(** X10. For an entry that does not take the main branch a transport
    always exists: selecting the client never fails, so neither the
    unsupported-type error nor the missing-URL error of [lifespan]
    can occur for an application that [run] mounts. *)
Theorem entry_transport_exists timeout cfg :
  is_main_app (read_locals (sub_app_state timeout cfg)) = false →
  ∃ c, select_client (read_locals (sub_app_state timeout cfg)) = Ok c.
Proof.
  unfold sub_app_state, is_main_app.
  destruct cfg as [cmd ar ty url]. cbn [cfg_command cfg_args cfg_type cfg_url].
  assert (is_stream_type "stdio" = false) as Hs3 by (by vm_compute).
  generalize (bool_decide (ty = Some "sse")),
    (bool_decide (ty = Some "streamablehttp")),
    (bool_decide (ty = Some "streamable_http")), (truthy_opt ty),
    (truthy (default "" url)).
  intros b1 b2 b3 b4 bu.
  destruct (truthy_opt cmd) eqn:Hcmd, bu, b1, b2, b3, b4;
    cbn -[is_stream_type select_client]; rewrite ?Hcmd, ?Hs3; intros H;
    try discriminate H.
  all: first
    [ eexists; by eapply select_sse
    | eexists; by eapply select_streamable
    | destruct cmd as [c|]; [|done]; eexists; by eapply select_stdio ].
Qed.

End further.

(** ** The modes of [run] *)

(** X11. In single-server SSE mode the connection timeout given to
    [run] is not used: the main application itself connects, through
    the SSE client on the first word of the server command, and with
    the read timeout of 10 that [lifespan] falls back to. *)
Theorem single_sse_ignores_timeout env kw p url rest :
  kw_server_type kw = Some "sse" →
  kw_server_command kw = Some (url :: rest) →
  ∃ m, (configure env kw p).1 = Ok (m, [])
    ∧ is_main_app (read_locals (state m)) = false
    ∧ select_client (read_locals (state m)) = Ok (sse_client url 10).
Proof.
  intros Hty Hcmd. unfold configure. rewrite Hty, Hcmd.
  eexists. split; [reflexivity|]. split; reflexivity.
Qed.

(** X12. In single-server streamable HTTP mode, under either
    spelling of the type, the main application connects through the
    streamable HTTP client on the first word of the server command as
    it is given: no slash is added, unlike for an entry of a
    configuration file. *)
Theorem single_streamable_url_unchanged env kw p url rest :
  kw_server_type kw = Some "streamablehttp"
  ∨ kw_server_type kw = Some "streamable_http" →
  kw_server_command kw = Some (url :: rest) →
  ∃ m, (configure env kw p).1 = Ok (m, [])
    ∧ is_main_app (read_locals (state m)) = false
    ∧ select_client (read_locals (state m)) = Ok (streamablehttp_client url).
Proof.
  intros Hty Hcmd. unfold configure. rewrite Hcmd.
  destruct Hty as [-> | ->]; eexists; (split; [reflexivity|]);
    split; reflexivity.
Qed.

(** X13. With a server command and any server type other than the
    stream types, [run] configures a stdio server, the type
    notwithstanding: the command is the first word and the arguments
    are the rest.  When the first word is the empty string the main
    application takes the main branch instead and, having no mounts,
    serves nothing. *)
Theorem single_stdio_transport env kw p c rest :
  is_stream_type (default "" (kw_server_type kw)) = false →
  kw_server_command kw = Some (c :: rest) →
  ∃ m, (configure env kw p).1 = Ok (m, [])
    ∧ is_main_app (read_locals (state m)) = negb (truthy c)
    ∧ (truthy c = true →
       select_client (read_locals (state m)) = Ok (stdio_client c rest)).
Proof.
  intros Hty Hcmd. unfold configure. rewrite Hcmd.
  assert (bool_decide (kw_server_type kw = Some "sse") = false) as ->.
  { apply bool_decide_eq_false. intros H. by rewrite H in Hty. }
  assert (bool_decide (kw_server_type kw = Some "streamablehttp") = false)
    as ->.
  { apply bool_decide_eq_false. intros H. by rewrite H in Hty. }
  assert (bool_decide (kw_server_type kw = Some "streamable_http") = false)
    as ->.
  { apply bool_decide_eq_false. intros H. by rewrite H in Hty. }
  cbn [orb]. eexists. split; [reflexivity|].
  split; [by destruct c|]. intros _. reflexivity.
Qed.

(** X14. A server command decides the mode before the configuration
    file is looked at: whatever the path and the content of the file,
    and whether or not it can be read, [run] with a server command
    that is not empty configures a single server, mounts nothing and
    logs one record. *)
Theorem command_precedes_config env env' kw p c rest :
  kw_server_command kw = Some (c :: rest) →
  peer_of env' = peer_of env →
  configure env' kw p = configure env kw p
  ∧ ∃ m msg, (configure env kw p).1 = Ok (m, [])
      ∧ ptrace (configure env kw p).2 = ptrace p ++ [Log INFO msg].
Proof.
  intros Hcmd Hpeer. unfold configure, new_main_app. rewrite Hcmd, Hpeer.
  split; [done|].
  destruct (bool_decide (kw_server_type kw = Some "sse"));
    [|destruct (bool_decide (kw_server_type kw = Some "streamablehttp")
                || bool_decide (kw_server_type kw = Some "streamable_http"))];
    eexists _, _; (split; [reflexivity|]); reflexivity.
Qed.

(** X15. In configuration mode [run] mounts one sub-application for
    every entry of [mcpServers], in the order of the file and under
    the name of the entry, passes each of them the connection timeout
    it was given, and leaves the main application on the main branch
    of [lifespan]. *)
Theorem config_mounts_every_entry env kw p path config entries :
  is_stream_type (default "" (kw_server_type kw)) = false →
  kw_server_command kw = None ∨ kw_server_command kw = Some [] →
  kw_config_path kw = Some path → truthy path = true →
  json_load env path = Ok config →
  mcpServers config = Some entries → entries ≠ [] →
  ∃ m routes, (configure env kw p).1 = Ok (m, routes)
    ∧ is_main_app (read_locals (state m)) = true
    ∧ title <$> mounted routes = entries.*1
    ∧ Forall (λ a, connection_timeout (state a)
                   = Some (kw_connection_timeout kw)) (mounted routes)
    ∧ routes
      = mount_server env (or_default (kw_path_prefix kw) "/")
          (kw_connection_timeout kw) <$> entries.
Proof.
  intros Hty Hcmd Hpath Htruthy Hload Hservers Hne. unfold configure.
  assert (bool_decide (kw_server_type kw = Some "sse") = false) as ->.
  { apply bool_decide_eq_false. intros H. by rewrite H in Hty. }
  assert (bool_decide (kw_server_type kw = Some "streamablehttp") = false)
    as ->.
  { apply bool_decide_eq_false. intros H. by rewrite H in Hty. }
  assert (bool_decide (kw_server_type kw = Some "streamable_http") = false)
    as ->.
  { apply bool_decide_eq_false. intros H. by rewrite H in Hty. }
  cbn [orb]. rewrite Hpath, Htruthy.
  destruct entries as [|entry entries]; [done|].
  assert (∀ es, title <$> mounted (mount_server env
              (or_default (kw_path_prefix kw) "/")
              (kw_connection_timeout kw) <$> es) = es.*1) as Htitles.
  { induction es as [|e es IH]; [done|]. cbn. by f_equal. }
  assert (∀ es, Forall (λ a, connection_timeout (state a)
                             = Some (kw_connection_timeout kw))
                  (mounted (mount_server env
                     (or_default (kw_path_prefix kw) "/")
                     (kw_connection_timeout kw) <$> es))) as Htimeouts.
  { induction es as [|e es IH]; [constructor|]. cbn. by constructor. }
  destruct Hcmd as [-> | ->];
    cbv [mbind M_bind bind lift plog pemit modify mret M_ret ret];
    rewrite Hload, Hservers; cbn [fst snd];
    eexists _, _; (split; [reflexivity|]); (split; [reflexivity|]);
    (split; [apply Htitles|]); (split; [apply Htimeouts|]); reflexivity.
Qed.

Lemma sub_start_connected l a t c :
  select_client l = Ok c → handshake_ok (peer a) = true →
  ∃ f', sub_start l (new_frame a t) = (Ok (Some (SubYield c)), f')
    ∧ peer (app f') = peer a
    ∧ title (app f') = connected_title a
    ∧ stack f' = [].
Proof.
  destruct a as [ti de ve [sty cmd ar ct pp ic hs]
                   [te se ini rt rrt rr sx tx]].
  intros Hc. unfold handshake_ok, connected_title, sub_start, new_frame.
  cbn [peer transport_enter session_enter initialize register_tools
       register_resource_templates register_resources title].
  rewrite Hc.
  destruct te; [done|]. destruct se; [done|]. destruct ini as [[si ins]|]; [|done].
  destruct rt; [done|]. destruct rrt; [done|]. destruct rr; [done|].
  intros _. run_monad.
  destruct si as [si|]; destruct (truthy_opt ins);
    eexists; (split; [reflexivity|]); done.
Qed.

Lemma sub_resume_eq c exc f :
  sub_resume c exc f
  = match in_flight_after (peer (app f)) exc with
    | Some e =>
        if is_Exception e then
          (Ok tt,
           with_app (set_is_connected false)
             (with_trace
                (trace f ++ exits c
                 ++ [Log ERROR (MFailedConnect (title (app f)) e)]) f))
        else (Raise e, with_trace (trace f ++ exits c) f)
    | None => (Ok tt, with_trace (trace f ++ exits c) f)
    end.
Proof.
  destruct f as [[ti de ve [sty cmd ar ct pp ic hs]
                    [te se ini rt rrt rr sx tx]] t su fa sk].
  unfold sub_resume, in_flight_after, exits.
  cbn [app peer session_exit transport_exit].
  destruct tx as [etx|], sx as [esx|], exc as [e|]; run_monad;
    try (destruct (is_Exception etx)); try (destruct (is_Exception esx));
    try (destruct (is_Exception e));
    rewrite <- ?app_assoc; cbn [Datatypes.app]; reflexivity.
Qed.

Lemma sub_start_result l a t :
  (sub_start l (new_frame a t)).1 = (sub_start l (new_frame a [])).1.
Proof.
  destruct a as [ti de ve [sty cmd ar ct pp ic hs]
                   [te se ini rt rrt rr sx tx]].
  unfold sub_start, new_frame.
  destruct (select_client l) as [c|e0] eqn:Hc.
  - run_monad. repeat step_oracle. all: reflexivity.
  - pose proof (select_client_raises _ _ Hc) as He0.
    run_monad. by rewrite He0.
Qed.

Lemma sub_start_interrupted l f e :
  (sub_start l f).1 = Raise e →
  is_Exception e = false
  ∧ ∃ δ, trace (sub_start l f).2 = trace f ++ δ
      ∧ Forall (λ ev, is_await ev = true) δ.
Proof.
  destruct f as [[ti de ve [sty cmd ar ct pp ic hs]
                    [te se ini rt rrt rr sx tx]] t su fa sk].
  unfold sub_start.
  destruct (select_client l) as [c|e0] eqn:Hc.
  - run_monad. repeat step_oracle.
    all: cbn [fst snd]; intros He; try discriminate He.
    all: injection He as <-; (split; [congruence|]).
    all: eexists; split; [rewrite <- ?app_assoc; simpl; reflexivity |].
    all: by repeat constructor.
  - pose proof (select_client_raises _ _ Hc) as He0.
    run_monad. by rewrite He0.
Qed.

Lemma closing_all_app apps1 apps2 exc :
  closing_all (apps1 ++ apps2) exc
  = ((closing_all apps1 exc).1
     ++ (closing_all apps2 (closing_all apps1 exc).2).1,
     (closing_all apps2 (closing_all apps1 exc).2).2).
Proof.
  revert exc. induction apps1 as [|a apps1 IH]; intros exc.
  - cbn. by destruct (closing_all apps2 exc).
  - cbn [Datatypes.app closing_all fst snd]. rewrite IH. cbn [fst snd].
    by rewrite app_assoc.
Qed.

Lemma stack_runs_nil : stack_runs [] [].
Proof. intros exc t. cbn. by rewrite app_nil_r. Qed.

Lemma stack_runs_app cbs1 cbs2 apps1 apps2 :
  stack_runs cbs1 apps1 → stack_runs cbs2 apps2 →
  stack_runs (cbs1 ++ cbs2) (apps1 ++ apps2).
Proof.
  intros H1 H2 exc t. rewrite run_callbacks_app, H1, H2, closing_all_app.
  cbn [fst snd]. by rewrite app_assoc.
Qed.

Section teardown.

Variable urljoin : string → string → string.

Lemma leaf_callback a t :
  match (lifespan_context urljoin a [] t).1 with
  | Ok (a', cb) => stack_runs [cb] [a]
  | Raise _ => connection a = None
  end.
Proof.
  rewrite lifespan_context_eq.
  unfold lifespan_start. unfold mbind, M_bind, bind, get. cbn [app new_frame].
  destruct (is_main_app (read_locals (state a))) eqn:Hmain.
  - rewrite main_start_no_mounts by done. cbn [fst].
    intros exc t'. unfold closing_all, closing, connection. rewrite Hmain.
    cbn [fst snd run_callbacks]. rewrite !app_nil_r.
    unfold in_frame, aexit, lifespan_resume, main_resume, aexit_stack,
      on_trace, thrown.
    cbv [mbind M_bind bind mret M_ret ret get modify try_except_base raise
         clear_stack with_trace new_frame stack trace run_callbacks fst snd].
    by destruct exc.
  - destruct (select_client (read_locals (state a))) as [c|e0] eqn:Hc.
    + destruct (handshake_ok (peer a)) eqn:Hok.
      * destruct (sub_start_connected _ a t c Hc Hok)
          as (f' & Hs & Hpeer & Htitle & Hsk).
        rewrite Hs. cbn [fst]. intros exc t'.
        unfold closing_all, closing, connection. rewrite Hmain, Hc, Hok.
        cbn [fst snd run_callbacks]. rewrite !app_nil_r.
        unfold in_frame, aexit, lifespan_resume.
        cbv [mbind M_bind bind mret M_ret ret try_except_base].
        rewrite sub_resume_eq. cbn [app with_trace trace].
        rewrite Hpeer, Htitle.
        destruct (in_flight_after (peer a) exc) as [e|] eqn:Hin;
          [destruct (is_Exception e) eqn:He|];
          cbn [fst snd trace with_app with_trace passed_on]; rewrite ?He.
        -- by destruct exc.
        -- done.
        -- assert (exc = None) as ->; [|done].
           unfold in_flight_after in Hin.
           by repeat case_match.
      * pose proof (sub_start_spec (read_locals (state a)) (new_frame a t))
          as (δ & _ & _ & _ & _ & _ & _ & Hres).
        unfold connection. rewrite Hmain, Hc, Hok.
        destruct (sub_start (read_locals (state a)) (new_frame a t))
          as [[[p|]|e] f']; cbn [fst snd app new_frame] in *; [|done..].
        destruct Hres as (c' & _ & _ & Hok' & _). congruence.
    + pose proof (sub_start_spec (read_locals (state a)) (new_frame a t))
        as (δ & _ & _ & _ & _ & _ & _ & Hres).
      unfold connection. rewrite Hmain, Hc.
      destruct (sub_start (read_locals (state a)) (new_frame a t))
        as [[[p|]|e] f']; cbn [fst snd app new_frame] in *; [|done..].
      destruct Hres as (c' & Hc' & _). congruence.
Qed.

Lemma attempt_runs a f :
  ∃ cbs, stack (attempt (a, lifespan_context urljoin a []) f).2
         = cbs ++ stack f
    ∧ stack_runs cbs [a].
Proof.
  rewrite attempt_eq.
  pose proof (leaf_callback a (trace f ++ [Log INFO (MInitiating (title a))]))
    as Hcb.
  destruct (lifespan_context urljoin a []
              (trace f ++ [Log INFO (MInitiating (title a))]))
    as [[[a' cb]|e] t'] eqn:Hctx; cbn [fst snd] in *.
  - exists [cb]. by destruct (get_is_connected a').
  - exists []. split; [by destruct (is_Exception e)|].
    intros exc t. unfold closing_all, closing. rewrite Hcb. cbn.
    by rewrite app_nil_r.
Qed.

Lemma establish_runs apps f :
  Forall (λ a, uninterrupted a = true) apps →
  ∃ cbs, stack (establish (leaves urljoin apps) f).2 = cbs ++ stack f
    ∧ stack_runs cbs (rev apps).
Proof.
  revert f. induction apps as [|a apps IH]; intros f Hall.
  - exists []. split; [done|]. apply stack_runs_nil.
  - apply Forall_cons in Hall as [Ha Hall].
    cbn [leaves fmap list_fmap establish].
    change ((λ a0, (a0, lifespan_context urljoin a0 [])) <$> apps)
      with (leaves urljoin apps).
    unfold mbind, M_bind, bind.
    destruct (attempt_leaf urljoin a f Ha) as (Hok & _).
    destruct (attempt_runs a f) as (cbs & Hsk & Hruns).
    destruct (attempt (a, lifespan_context urljoin a []) f) as [[[]|e] f1];
      cbn [fst snd] in *; [|done].
    destruct (IH f1 Hall) as (cbs' & Hsk' & Hruns').
    exists (cbs' ++ cbs). split; [by rewrite Hsk', Hsk, app_assoc|].
    cbn [rev]. by apply stack_runs_app.
Qed.

Lemma main_start_eq l subs f :
  main_start urljoin l subs f
  = match establish subs f with
    | (Ok _, f1) => (Ok (Some MainYield), (summary urljoin l f1).2)
    | (Raise e, f1) => (aexit_stack (Some e) ;; mret None) f1
    end.
Proof.
  unfold main_start, try_except_base. unfold mbind at 1 2, M_bind at 1 2.
  unfold bind at 1 2.
  destruct (establish subs f) as [[[]|e] f1]; [|done].
  by rewrite summary_spec.
Qed.

Lemma aexit_stack_runs apps exc f :
  stack_runs (stack f) apps →
  aexit_stack exc f
  = (match (closing_all apps exc).2 with
     | Some e => Raise e
     | None => Ok tt
     end,
     clear_stack (with_trace (trace f ++ (closing_all apps exc).1) f)).
Proof.
  intros Hruns. unfold aexit_stack, on_trace, thrown.
  cbv [mbind M_bind bind mret M_ret ret get modify raise].
  cbn [stack trace clear_stack]. rewrite Hruns.
  by destruct (closing_all apps exc).2.
Qed.

Lemma main_start_runs l apps f :
  Forall (λ a, uninterrupted a = true) apps → stack f = [] →
  (main_start urljoin l (leaves urljoin apps) f).1 = Ok (Some MainYield)
  ∧ stack_runs (stack (main_start urljoin l (leaves urljoin apps) f).2)
      (rev apps).
Proof.
  intros Hall Hsk. rewrite main_start_eq.
  destruct (establish_leaves urljoin apps f Hall) as (Hok & _).
  destruct (establish_runs apps f Hall) as (cbs & Hsk' & Hruns).
  destruct (establish (leaves urljoin apps) f) as [[[]|e] f1];
    cbn [fst snd] in *; [|done].
  split; [done|]. rewrite summary_spec. cbn [snd stack with_trace with_app].
  rewrite Hsk', Hsk, app_nil_r. done.
Qed.


Lemma connections_app apps1 apps2 :
  connections (apps1 ++ apps2) = connections apps1 ++ connections apps2.
Proof. unfold connections. apply omap_app. Qed.

Lemma connections_rev apps : connections (rev apps) = rev (connections apps).
Proof.
  induction apps as [|a apps IH]; [done|].
  cbn [rev]. rewrite connections_app, IH.
  unfold connections at 2 3. cbn [omap list_omap].
  destruct (connection a); cbn [rev]; [done|]. by rewrite app_nil_r.
Qed.

Lemma closing_all_returns apps exc :
  Forall (λ a, releases_return a = true) apps →
  (∀ e, exc = Some e → is_Exception e = false) →
  closing_all apps exc = (release_records (connections apps), exc).
Proof.
  intros Hall Hexc. induction Hall as [|a apps Ha _ IH]; [done|].
  cbn [closing_all]. unfold closing, connections.
  cbn [omap list_omap]. fold (connections apps).
  apply andb_prop in Ha as [Hsx Htx].
  destruct (connection a) as [c|]; cbn [fst snd]; [|by rewrite IH].
  assert (in_flight_after (peer a) exc = exc) as ->.
  { unfold in_flight_after.
    by destruct (transport_exit (peer a)), (session_exit (peer a)). }
  destruct exc as [e|]; cbn [passed_on].
  - rewrite (Hexc e eq_refl), IH. cbn [fst snd].
    by rewrite app_nil_r.
  - rewrite IH. cbn [fst snd]. by rewrite app_nil_r.
Qed.

Lemma closing_all_unconnected apps exc :
  Forall (λ a, connection a = None) apps → closing_all apps exc = ([], exc).
Proof.
  induction 1 as [|a apps Ha _ IH]; [done|].
  cbn [closing_all]. unfold closing. rewrite Ha. cbn [fst snd]. by rewrite IH.
Qed.

Lemma connections_unconnected apps :
  Forall (λ a, connection a = None) apps → connections apps = [].
Proof.
  induction 1 as [|a apps Ha _ IH]; [done|].
  unfold connections in *. cbn. by rewrite Ha.
Qed.

Lemma establish_app subs1 subs2 f :
  establish (subs1 ++ subs2) f
  = match establish subs1 f with
    | (Ok _, f1) => establish subs2 f1
    | (Raise e, f1) => (Raise e, f1)
    end.
Proof.
  revert f. induction subs1 as [|sub subs1 IH]; intros f; [done|].
  cbn [Datatypes.app establish]. unfold mbind, M_bind, bind.
  destruct (attempt sub f) as [[[]|e] f1]; [apply IH|done].
Qed.

(** ** Teardown *)

(** X16. Leaving the [yield] of a sub-application closes the session
    and then the transport, whatever is thrown in and whatever the
    closing raises.  Of what is raised the last counts: the error of
    the transport before that of the session before what was thrown
    in.  An [Exception] is swallowed: it is logged as a failure to
    connect, under the title that the application has by then, and
    the connected flag is cleared.  Anything else is raised again,
    without a record; and when nothing is in flight the application
    is left as it was, its flag still set. *)
Theorem connection_teardown c exc f :
  let r := sub_resume c exc f in
  ∃ δ, trace r.2 = trace f ++ Await SessionExit c :: Await TransportExit c :: δ
    ∧ match in_flight_after (peer (app f)) exc with
      | Some e =>
          if is_Exception e then
            r.1 = Ok tt
            ∧ δ = [Log ERROR (MFailedConnect (title (app f)) e)]
            ∧ is_connected (state (app r.2)) = Some false
          else r.1 = Raise e ∧ δ = [] ∧ app r.2 = app f
      | None => r.1 = Ok tt ∧ δ = [] ∧ app r.2 = app f
      end.
Proof.
  cbv zeta. rewrite sub_resume_eq.
  destruct (in_flight_after (peer (app f)) exc) as [e|];
    [destruct (is_Exception e)|]; eexists; (split; [reflexivity|]); done.
Qed.

(** X17. The teardown of the main application, in full.  The
    mounted applications are gone through from the last to the first;
    those that are connected are closed, session before transport.
    What is in flight after a connection is what its closing raised
    last, else what was in flight before; if that is an [Exception]
    it is logged under the title of the application after its
    handshake and is not in flight any more.  The main application
    raises what is in flight at the end. *)
Theorem teardown_outcome l main t routes exc :
  Forall (λ a, uninterrupted a = true) (mounted routes) →
  let started := (main_start urljoin l (sub_lifespans urljoin routes)
                    (new_frame main t)).2 in
  let r := main_resume exc started in
  r.1 = match (closing_all (rev (mounted routes)) exc).2 with
        | Some e => Raise e
        | None => Ok tt
        end
  ∧ trace r.2 = trace started ++ (closing_all (rev (mounted routes)) exc).1
  ∧ stack r.2 = [].
Proof.
  intros Hall. cbv zeta. rewrite sub_lifespans_leaves.
  destruct (main_start_runs l (mounted routes) (new_frame main t) Hall eq_refl)
    as [_ Hruns].
  unfold main_resume. rewrite (aexit_stack_runs _ _ _ Hruns). done.
Qed.

(** X18. When no closing raises and what is in flight is not an
    [Exception] (nothing, or a cancellation), the teardown logs
    nothing: it only closes the connections, the most recent first,
    and raises again what was in flight. *)
Theorem quiet_teardown l main t routes exc :
  Forall (λ a, uninterrupted a = true) (mounted routes) →
  Forall (λ a, releases_return a = true) (mounted routes) →
  (∀ e, exc = Some e → is_Exception e = false) →
  let started := (main_start urljoin l (sub_lifespans urljoin routes)
                    (new_frame main t)).2 in
  let r := main_resume exc started in
  r.1 = match exc with Some e => Raise e | None => Ok tt end
  ∧ trace r.2
    = trace started ++ release_records (rev (connections (mounted routes))).
Proof.
  intros Hall Hret Hexc. cbv zeta. rewrite sub_lifespans_leaves.
  destruct (main_start_runs l (mounted routes) (new_frame main t) Hall eq_refl)
    as [_ Hruns].
  unfold main_resume. rewrite (aexit_stack_runs _ _ _ Hruns).
  rewrite closing_all_returns by (by try apply Forall_rev).
  by rewrite connections_rev.
Qed.

(** X19. An [Exception] in flight at the teardown does not leave the
    main application when a backend is connected: the connection made
    last swallows it.  It is logged as a failure to connect to that
    backend, the other connections are closed with nothing in flight,
    and the main application returns. *)
Theorem teardown_absorbs_exception l main t routes before a after c e :
  mounted routes = before ++ a :: after →
  Forall (λ a, uninterrupted a = true) (mounted routes) →
  Forall (λ a, releases_return a = true) (mounted routes) →
  connection a = Some c →
  Forall (λ x, connection x = None) after →
  is_Exception e = true →
  let started := (main_start urljoin l (sub_lifespans urljoin routes)
                    (new_frame main t)).2 in
  let r := main_resume (Some e) started in
  r.1 = Ok tt
  ∧ trace r.2
    = trace started ++ exits c
      ++ [Log ERROR (MFailedConnect (connected_title a) e)]
      ++ release_records (rev (connections before)).
Proof.
  intros Hm Hall Hret Hc Hafter He. cbv zeta. rewrite sub_lifespans_leaves.
  destruct (main_start_runs l (mounted routes) (new_frame main t) Hall eq_refl)
    as [_ Hruns].
  unfold main_resume. rewrite (aexit_stack_runs _ _ _ Hruns).
  rewrite Hm in Hret |- *.
  apply Forall_app in Hret as [Hbefore [Ha _]%Forall_cons].
  rewrite rev_app_distr. cbn [rev]. rewrite <- app_assoc.
  rewrite closing_all_app.
  rewrite (closing_all_unconnected (rev after)) by (by apply Forall_rev).
  cbn [fst snd Datatypes.app closing_all]. unfold closing. rewrite Hc.
  apply andb_prop in Ha as [Hsx Htx].
  assert (in_flight_after (peer a) (Some e) = Some e) as ->.
  { unfold in_flight_after.
    by destruct (transport_exit (peer a)), (session_exit (peer a)). }
  rewrite He. cbn [fst snd passed_on]. rewrite He.
  rewrite closing_all_returns by (by try apply Forall_rev).
  cbn [fst snd]. rewrite connections_rev, <- !app_assoc. done.
Qed.

Lemma attempt_interrupted b f e :
  is_main_app (read_locals (state b)) = false →
  (sub_start (read_locals (state b)) (new_frame b [])).1 = Raise e →
  is_Exception e = false
  ∧ ∃ δ, Forall (λ ev, is_await ev = true) δ
      ∧ attempt (b, lifespan_context urljoin b []) f
        = (Raise e,
           {| app := app f;
              trace := trace f ++ Log INFO (MInitiating (title b)) :: δ;
              successful_servers := successful_servers f;
              failed_servers := failed_servers f;
              stack := stack f |}).
Proof.
  intros Hmain Hstart.
  rewrite attempt_eq, lifespan_context_eq.
  unfold lifespan_start. unfold mbind, M_bind, bind, get.
  cbn [app new_frame]. rewrite Hmain.
  pose proof (sub_start_result (read_locals (state b)) b
                (trace f ++ [Log INFO (MInitiating (title b))])) as Hsame.
  rewrite Hstart in Hsame.
  destruct (sub_start_interrupted _ _ _ Hsame) as (He & δ & Ht & Hq).
  destruct (sub_start (read_locals (state b))
              (new_frame b (trace f ++ [Log INFO (MInitiating (title b))])))
    as [r f2]; cbn [fst snd] in *. subst r.
  rewrite He. split; [done|].
  exists δ. split; [done|]. rewrite Ht. cbn [new_frame trace].
  by rewrite <- app_assoc.
Qed.

(** X20. An establishment that is interrupted, by a cancellation or
    by the interpreter exiting, ends the loop.  After the record that
    begins it the trace holds awaits only: those of the interrupted
    establishment and then the closing of the connections made before
    it, the most recent first.  No backend after it is attempted, no
    summary is logged, and the main application raises the
    interruption instead of reaching its [yield]. *)
Theorem interrupted_establishment l main t routes before b after e :
  mounted routes = before ++ b :: after →
  Forall (λ a, uninterrupted a = true) before →
  Forall (λ a, releases_return a = true) before →
  is_main_app (read_locals (state b)) = false →
  (sub_start (read_locals (state b)) (new_frame b [])).1 = Raise e →
  let r := main_start urljoin l (sub_lifespans urljoin routes)
             (new_frame main t) in
  r.1 = Raise e
  ∧ is_Exception e = false
  ∧ ∃ blocks δ,
      trace r.2
      = t ++ concat blocks ++ Log INFO (MInitiating (title b)) :: δ
        ++ release_records (rev (connections before))
      ∧ Forall2 block_of before blocks
      ∧ Forall (λ ev, is_await ev = true) δ.
Proof.
  intros Hm Hall Hret Hmain Hstart. cbv zeta.
  pose proof (λ f, attempt_interrupted b f e Hmain Hstart) as Hattempt.
  rewrite sub_lifespans_leaves, Hm, main_start_eq.
  unfold leaves. rewrite fmap_app, fmap_cons. fold (leaves urljoin before).
  fold (leaves urljoin after). rewrite establish_app.
  destruct (establish_leaves urljoin before (new_frame main t) Hall)
    as (Hok & _ & _ & _ & (blocks & Htr & Hblocks) & _).
  destruct (establish_runs before (new_frame main t) Hall)
    as (cbs & Hsk & Hruns).
  destruct (establish (leaves urljoin before) (new_frame main t))
    as [[[]|e'] f1]; cbn [fst snd] in *; [|done].
  destruct (Hattempt f1) as (He & δ & Hq & Heq).
  cbn [establish]. unfold mbind, M_bind, bind. rewrite Heq.
  rewrite (aexit_stack_runs (rev before) (Some e)).
  2: { cbn [stack]. rewrite Hsk. by rewrite app_nil_r. }
  rewrite closing_all_returns; [|by apply Forall_rev|by intros ? [= <-]].
  cbn [fst snd trace clear_stack with_trace new_frame].
  split_and!; [done..|].
  exists blocks, δ. split; [|done].
  rewrite Htr, connections_rev. cbn [new_frame trace].
  by rewrite <- !app_assoc.
Qed.

End teardown.


(** The run loop while nothing happens during its wait. *)
Lemma run_loop_idle result_of at_gather se tr :
  serve_until_shutdown result_of [] at_gather
    {| shutdown_event := false; tasks := ∅; should_exit := se;
       finished := ∅; ptrace := tr |}
  = (Ok StillWaiting,
     {| shutdown_event := false; tasks := {[ server_task ]};
        should_exit := se; finished := ∅;
        ptrace := tr ++ [CreateTask server_task;
                         CreateTask shutdown_wait_task] |}).
Proof.
  unfold serve_until_shutdown.
  unfold try_finally, try_except, try_except_base.
  unfold mbind at 1, M_bind at 1, bind at 1.
  match goal with |- context [pemit (CreateTask server_task) ?p] =>
    change (pemit (CreateTask server_task) p)
      with (Ok tt, {| shutdown_event := false; tasks := ∅; should_exit := se;
                      finished := ∅;
                      ptrace := tr ++ [CreateTask server_task] |}) end.
  cbv beta iota.
  unfold mbind at 1, M_bind at 1, bind at 1.
  match goal with |- context [track_task server_task ?p] =>
    change (track_task server_task p)
      with (Ok tt, {| shutdown_event := false; tasks := ∅ ∪ {[ server_task ]};
                      should_exit := se; finished := ∅;
                      ptrace := tr ++ [CreateTask server_task] |}) end.
  cbv beta iota.
  unfold mbind at 1, M_bind at 1, bind at 1.
  match goal with |- context [pemit (CreateTask shutdown_wait_task) ?p] =>
    change (pemit (CreateTask shutdown_wait_task) p)
      with (Ok tt, {| shutdown_event := false; tasks := ∅ ∪ {[ server_task ]};
                      should_exit := se; finished := ∅;
                      ptrace := (tr ++ [CreateTask server_task])
                                ++ [CreateTask shutdown_wait_task] |}) end.
  cbv beta iota.
  unfold mbind at 1, M_bind at 1, bind at 1.
  rewrite wait_outcome by done. rewrite pfor_each_happen.
  cbn [exited signalled signal_records omap list_omap nonempty orb fst snd
       shutdown_event tasks should_exit finished ptrace].
  cbv [mret M_ret ret]. rewrite (left_id_L ∅ (∪)), app_nil_r, <- app_assoc.
  reflexivity.
Qed.

(** The run loop from a state in which nothing is tracked, once
    something happens during its wait. *)
Lemma run_loop_from result_of at_wait at_gather se tr :
  at_wait ≠ [] →
  serve_until_shutdown result_of at_wait at_gather
    {| shutdown_event := false; tasks := ∅; should_exit := se;
       finished := ∅; ptrace := tr |}
  = (Ok ShutDown,
     {| shutdown_event := true;
        tasks := ∅;
        should_exit := true;
        finished := {[ server_task ]};
        ptrace :=
          tr ++ [CreateTask server_task; CreateTask shutdown_wait_task]
          ++ signal_records at_wait
          ++ (if exited at_wait then [Log WARNING MServerExited] else [])
          ++ (Cancel <$> (if exited at_wait then [] else [server_task])
                         ++ (if signalled at_wait then []
                             else [shutdown_wait_task]))
          ++ [Log INFO MInitiatingShutdown; SetShouldExit]
          ++ (if exited at_wait then []
              else [Cancel server_task; Gather [server_task]]
                   ++ ((λ s, Log INFO (MReceived s)) <$> at_gather))
          ++ [Log INFO MShutdownComplete] |}).
Proof.
  intros Hne%something_happened.
  unfold serve_until_shutdown.
  unfold try_finally, try_except, try_except_base.
  unfold mbind at 1, M_bind at 1, bind at 1.
  match goal with |- context [pemit (CreateTask server_task) ?p] =>
    change (pemit (CreateTask server_task) p)
      with (Ok tt, {| shutdown_event := false; tasks := ∅; should_exit := se;
                      finished := ∅;
                      ptrace := tr ++ [CreateTask server_task] |}) end.
  cbv beta iota.
  unfold mbind at 1, M_bind at 1, bind at 1.
  match goal with |- context [track_task server_task ?p] =>
    change (track_task server_task p)
      with (Ok tt, {| shutdown_event := false; tasks := ∅ ∪ {[ server_task ]};
                      should_exit := se; finished := ∅;
                      ptrace := tr ++ [CreateTask server_task] |}) end.
  cbv beta iota.
  unfold mbind at 1, M_bind at 1, bind at 1.
  match goal with |- context [pemit (CreateTask shutdown_wait_task) ?p] =>
    change (pemit (CreateTask shutdown_wait_task) p)
      with (Ok tt, {| shutdown_event := false; tasks := ∅ ∪ {[ server_task ]};
                      should_exit := se; finished := ∅;
                      ptrace := (tr ++ [CreateTask server_task])
                                ++ [CreateTask shutdown_wait_task] |}) end.
  cbv beta iota.
  unfold mbind at 1, M_bind at 1, bind at 1.
  rewrite wait_outcome by done. rewrite Hne, pfor_each_happen.
  cbn [fst snd shutdown_event tasks should_exit finished ptrace orb].
  destruct (exited at_wait) eqn:Hex.
  - rewrite bool_decide_eq_true_2 by (cbn; set_solver).
    rewrite tracked_none, (left_id_L ∅ (∪)).
    destruct (signalled at_wait);
      cbn [pfor_each Datatypes.app fmap list_fmap];
      run_process; cbn [shutdown_event tasks should_exit finished ptrace
                        pfor_each];
      rewrite elements_empty;
      rewrite (bool_decide_eq_false_2 (∅ ≠ ∅)) by (intros H; by apply H);
      cbn [pfor_each]; run_process;
      cbn [shutdown_event tasks should_exit finished ptrace];
      rewrite <- ?app_assoc; reflexivity.
  - cbn [orb] in Hne. rewrite Hne.
    rewrite bool_decide_eq_false_2 by (cbn; set_solver).
    cbn [pfor_each Datatypes.app fmap list_fmap].
    run_process. cbn [shutdown_event tasks should_exit finished ptrace
                      pfor_each].
    rewrite tracked_server.
    rewrite (bool_decide_eq_true_2 (∅ ∪ {[server_task]} ≠ ∅)) by set_solver.
    cbn [pfor_each]. unfold task_is_done.
    cbn [shutdown_event tasks should_exit finished ptrace].
    rewrite (bool_decide_eq_false_2 (server_task ∈ ∅)) by set_solver.
    rewrite (bool_decide_eq_false_2 (server_task = shutdown_wait_task))
      by done.
    cbn [orb andb]. run_process.
    unfold gather_return_exceptions. run_process.
    rewrite pfor_each_signals.
    cbn [shutdown_event tasks should_exit finished ptrace pfor_each].
    run_process. cbn [shutdown_event tasks should_exit finished ptrace].
    rewrite tracked_none, (left_id_L ∅ (∪)).
    rewrite <- ?app_assoc. reflexivity.
Qed.

(** ** The run loop and [run] *)

(** X21. Until a signal arrives or the serving task comes to its end
    the run loop stays in its wait, and it leaves the wait only then:
    while it waits the two tasks exist, the serving task is tracked,
    nothing is cancelled, the server is not told to exit and the end
    of the shutdown is not logged. *)
Theorem run_loop_waits result_of at_wait at_gather :
  let r := serve_until_shutdown result_of at_wait at_gather initial in
  (r.1 = Ok StillWaiting ↔ at_wait = [])
  ∧ (at_wait = [] →
     ptrace r.2 = [CreateTask server_task; CreateTask shutdown_wait_task]
     ∧ tasks r.2 = {[ server_task ]}
     ∧ shutdown_event r.2 = false
     ∧ should_exit r.2 = false).
Proof.
  cbv zeta. unfold initial. destruct at_wait as [|h hs].
  - rewrite run_loop_idle. done.
  - rewrite run_loop_from by done. done.
Qed.


Section report.

Variable urljoin : string → string → string.

(** ** The report *)

(** X23. Every mounted application is in the report once: the names
    of the connected and of the failed servers, taken together, are
    the titles of the mounted applications, each as often as it is
    mounted. *)
Theorem report_covers_mounts l main t routes :
  Forall (λ a, uninterrupted a = true) (mounted routes) →
  let r := main_start urljoin l (sub_lifespans urljoin routes)
             (new_frame main t) in
  successful_servers r.2 ++ failed_servers r.2 ≡ₚ title <$> mounted routes.
Proof.
  intros Hall. cbv zeta. rewrite sub_lifespans_leaves.
  destruct (main_start_spec urljoin l (mounted routes) (new_frame main t) Hall)
    as (blocks & cbs & _ & _ & _ & ->).
  cbn [snd successful_servers failed_servers new_frame Datatypes.app].
  rewrite <- fmap_app. apply fmap_Permutation.
  clear. induction (mounted routes) as [|a apps IH]; [done|].
  rewrite !filter_cons. destruct (establishes a); repeat case_decide; try done.
  - cbn. by apply perm_skip.
  - rewrite <- Permutation_middle. by apply perm_skip.
Qed.

(** X24. The lifespan of an application that connects by itself, as
    the main application does in single-server mode, does not reach
    its [yield] when the connection fails: the failure is logged, and
    entering the lifespan context raises the [RuntimeError] of
    [contextlib] for a generator that did not yield.  What the loop
    of the main application contains for a mounted application is
    fatal here. *)
Theorem failed_lifespan_does_not_yield a subs t :
  is_main_app (read_locals (state a)) = false →
  ordinary (peer a) = true →
  establishes a = false →
  (lifespan_context urljoin a subs t).1
  = Raise (RuntimeError "generator didn't yield")
  ∧ ∃ name e δ,
      (lifespan_context urljoin a subs t).2 = t ++ δ
      ∧ last δ = Some (Log ERROR (MFailedConnect name e)).
Proof.
  intros Hmain Hord Hest. rewrite lifespan_context_eq.
  unfold lifespan_start. unfold mbind, M_bind, bind, get.
  cbn [app new_frame]. rewrite Hmain.
  pose proof (sub_start_spec (read_locals (state a)) (new_frame a t))
    as (δ & Ht & _ & _ & _ & _ & _ & Hres).
  unfold establishes, connection in Hest. rewrite Hmain in Hest.
  destruct (sub_start (read_locals (state a)) (new_frame a t))
    as [[[p|]|e] f']; cbn [fst snd app new_frame trace] in *.
  - destruct Hres as (c & Hc & _ & Hok & _). by rewrite Hc, Hok in Hest.
  - destruct Hres as (_ & _ & e & Hlast). split; [done|]. by eexists _, _, _.
  - destruct Hres as (_ & Hno & _). congruence.
Qed.

End report.

Lemma records_only (δ : list event) :
  Forall (λ e, is_await e = false) δ →
  transport_releases δ = [] ∧ session_releases δ = [].
Proof.
  induction 1 as [|e δ He _ IH]; [done|].
  destruct e as [| c on | | | |]; try done.
Qed.

Lemma summary_records_only succeeded failed :
  Forall (λ e, is_await e = false) (summary_records succeeded failed).
Proof.
  unfold summary_records.
  repeat (apply Forall_app; split);
    repeat case_match; repeat constructor;
    by apply Forall_fmap, Forall_true.
Qed.

Lemma sub_start_balance l f :
  ∃ δ, trace (sub_start l f).2 = trace f ++ δ
    ∧ match select_client l with
      | Ok c =>
          transport_releases δ
          ++ match (sub_start l f).1 with Ok (Some _) => [c] | _ => [] end
          = (if returns (transport_enter (peer (app f))) then [c] else [])
          ∧ session_releases δ
            ++ match (sub_start l f).1 with Ok (Some _) => [c] | _ => [] end
            = (if returns (transport_enter (peer (app f)))
                  && returns (session_enter (peer (app f)))
               then [c] else [])
      | Raise _ => transport_releases δ = [] ∧ session_releases δ = []
      end.
Proof.
  destruct f as [[ti de ve [sty cmd ar ct pp ic hs]
                    [te se ini rt rrt rr sx tx]] t su fa sk].
  unfold sub_start.
  destruct (select_client l) as [c|e0] eqn:Hc.
  - run_monad. repeat step_oracle.
    all: eexists; split; [rewrite <- ?app_assoc; simpl; reflexivity |].
    all: split; reflexivity.
  - pose proof (select_client_raises _ _ Hc) as He0.
    run_monad. rewrite He0.
    eexists; split; [rewrite <- ?app_assoc; simpl; reflexivity |]. done.
Qed.

Lemma closing_all_calls apps exc :
  transport_releases (closing_all apps exc).1 = connections apps
  ∧ session_releases (closing_all apps exc).1 = connections apps.
Proof.
  revert exc. induction apps as [|a apps IH]; intros exc; [done|].
  cbn [closing_all fst snd].
  destruct (releases_app (closing a exc).1
              (closing_all apps (closing a exc).2).1) as [-> ->].
  destruct (IH (closing a exc).2) as (-> & ->).
  unfold connections. cbn [omap list_omap]. fold (connections apps).
  unfold closing. destruct (connection a) as [c|]; cbn [fst snd]; [|done].
  destruct (in_flight_after (peer a) exc) as [e|];
    [destruct (is_Exception e)|]; done.
Qed.

Section balance.

Variable urljoin : string → string → string.

Lemma leaf_balance a t :
  ∃ δ, (lifespan_context urljoin a [] t).2 = t ++ δ
    ∧ transport_releases δ ++ option_list (connection a)
      = option_list (opened_transport a)
    ∧ session_releases δ ++ option_list (connection a)
      = option_list (opened_session a).
Proof.
  rewrite lifespan_context_eq.
  unfold lifespan_start, connection, opened_transport, opened_session.
  unfold mbind, M_bind, bind, get. cbn [app new_frame].
  destruct (is_main_app (read_locals (state a))) eqn:Hmain.
  - rewrite main_start_no_mounts by done.
    eexists; split; [reflexivity|]. done.
  - pose proof (sub_start_spec (read_locals (state a)) (new_frame a t))
      as (δ0 & _ & _ & _ & _ & _ & _ & Hres).
    destruct (sub_start_balance (read_locals (state a)) (new_frame a t))
      as (δ & Ht & Hbal).
    destruct (sub_start (read_locals (state a)) (new_frame a t))
      as [[[p|]|e] f']; cbn [fst snd app new_frame trace] in *.
    + destruct Hres as (c & Hc & -> & Hok & _). rewrite Hc, Hok in *.
      destruct Hbal as [Htr Hse]. exists δ. split; [done|].
      destruct (returns (transport_enter (peer a))),
        (returns (session_enter (peer a))); cbn in *; by rewrite ?Htr, ?Hse.
    + destruct Hres as (Hc & _). exists δ. split; [done|].
      destruct (select_client _) as [c|]; [rewrite Hc|];
        destruct Hbal as [Htr Hse]; rewrite ?app_nil_r in *;
        rewrite Htr, Hse; [|done].
      by destruct (returns (transport_enter (peer a))),
           (returns (session_enter (peer a))).
    + destruct Hres as (_ & _ & Hc). exists δ. split; [done|].
      destruct (select_client _) as [c|]; [rewrite Hc|];
        destruct Hbal as [Htr Hse]; rewrite ?app_nil_r in *;
        rewrite Htr, Hse; [|done].
      by destruct (returns (transport_enter (peer a))),
           (returns (session_enter (peer a))).
Qed.

Lemma attempt_balance a f :
  ∃ δ, trace (attempt (a, lifespan_context urljoin a []) f).2 = trace f ++ δ
    ∧ transport_releases δ ++ option_list (connection a)
      = option_list (opened_transport a)
    ∧ session_releases δ ++ option_list (connection a)
      = option_list (opened_session a).
Proof.
  rewrite attempt_eq.
  destruct (leaf_balance a (trace f ++ [Log INFO (MInitiating (title a))]))
    as (δ & Ht & Htr & Hse).
  assert (∀ ev, is_await ev = false →
            transport_releases
              (Log INFO (MInitiating (title a)) :: δ ++ [ev])
            = transport_releases δ
            ∧ session_releases
                (Log INFO (MInitiating (title a)) :: δ ++ [ev])
              = session_releases δ) as Hrec.
  { intros ev Hev.
    change (Log INFO (MInitiating (title a)) :: δ ++ [ev])
      with ([Log INFO (MInitiating (title a))] ++ δ ++ [ev]).
    destruct (releases_app [Log INFO (MInitiating (title a))] (δ ++ [ev]))
      as [-> ->].
    destruct (releases_app δ [ev]) as [-> ->].
    destruct ev; try done; cbn; by rewrite !app_nil_r. }
  destruct (lifespan_context urljoin a []
              (trace f ++ [Log INFO (MInitiating (title a))]))
    as [[[a' cb]|e] t']; cbn [fst snd] in *; subst t'.
  - destruct (get_is_connected a'); cbn [snd trace];
      eexists; (split; [rewrite <- !app_assoc; reflexivity|]);
      cbn [Datatypes.app];
      match goal with |- context [δ ++ [?ev]] =>
        destruct (Hrec ev eq_refl) as [-> ->] end; done.
  - destruct (is_Exception e); cbn [snd trace];
      eexists; (split; [rewrite <- ?app_assoc; reflexivity|]);
      cbn [Datatypes.app].
    + match goal with |- context [δ ++ [?ev]] =>
        destruct (Hrec ev eq_refl) as [-> ->] end. done.
    + change (Log INFO (MInitiating (title a)) :: δ)
        with ([Log INFO (MInitiating (title a))] ++ δ).
      destruct (releases_app [Log INFO (MInitiating (title a))] δ)
        as [-> ->]. done.
Qed.

Lemma establish_balance apps f :
  Forall (λ a, uninterrupted a = true) apps →
  ∃ δ, trace (establish (leaves urljoin apps) f).2 = trace f ++ δ
    ∧ transport_releases δ ++ connections apps ≡ₚ omap opened_transport apps
    ∧ session_releases δ ++ connections apps ≡ₚ omap opened_session apps.
Proof.
  revert f. induction apps as [|a apps IH]; intros f Hall.
  - exists []. cbn. by rewrite app_nil_r.
  - apply Forall_cons in Hall as [Ha Hall].
    cbn [leaves fmap list_fmap establish].
    change ((λ a0, (a0, lifespan_context urljoin a0 [])) <$> apps)
      with (leaves urljoin apps).
    unfold mbind, M_bind, bind.
    destruct (attempt_leaf urljoin a f Ha) as (Hok & _).
    destruct (attempt_balance a f) as (δ1 & Ht1 & Htr1 & Hse1).
    destruct (attempt (a, lifespan_context urljoin a []) f) as [[[]|e] f1];
      cbn [fst snd] in *; [|done].
    destruct (IH f1 Hall) as (δ2 & Ht2 & Htr2 & Hse2).
    exists (δ1 ++ δ2). split; [by rewrite Ht2, Ht1, app_assoc|].
    destruct (releases_app δ1 δ2) as [-> ->].
    assert (∀ (o o' : option client_context) r1 r2 cs os,
              r1 ++ option_list o = option_list o' →
              r2 ++ cs ≡ₚ os →
              (r1 ++ r2) ++ option_list o ++ cs ≡ₚ option_list o' ++ os)
      as Hperm.
    { intros o o' r1 r2 cs os <- <-.
      rewrite <- !app_assoc. apply Permutation_app_head.
      rewrite !app_assoc. apply Permutation_app_tail.
      apply Permutation_app_comm. }
    unfold connections in *. cbn [omap list_omap].
    split.
    + specialize (Hperm _ _ _ _ _ _ Htr1 Htr2).
      by destruct (connection a), (opened_transport a).
    + specialize (Hperm _ _ _ _ _ _ Hse1 Hse2).
      by destruct (connection a), (opened_session a).
Qed.

(** ** Resources *)

(** X25. No connection is left open, and nothing is closed that was
    not opened.  Over the life of the main application, from the
    establishment of its backends to the end of the teardown, the
    transports that are closed are those that were opened, each once,
    and so for the sessions: the ones of the establishments that
    failed are closed by the establishment itself, the others by the
    teardown, whatever is in flight then and whatever the closing
    raises. *)
Theorem no_connection_left_open l main t routes exc :
  Forall (λ a, uninterrupted a = true) (mounted routes) →
  let started := (main_start urljoin l (sub_lifespans urljoin routes)
                    (new_frame main t)).2 in
  let r := main_resume exc started in
  ∃ δ, trace r.2 = t ++ δ
    ∧ transport_releases δ ≡ₚ omap opened_transport (mounted routes)
    ∧ session_releases δ ≡ₚ omap opened_session (mounted routes).
Proof.
  intros Hall. cbv zeta. rewrite sub_lifespans_leaves.
  destruct (main_start_runs urljoin l (mounted routes) (new_frame main t)
              Hall eq_refl) as [_ Hruns].
  unfold main_resume. rewrite (aexit_stack_runs _ _ _ Hruns).
  cbn [snd trace clear_stack with_trace]. clear Hruns.
  rewrite main_start_eq.
  destruct (establish_leaves urljoin (mounted routes) (new_frame main t) Hall)
    as (Hok & _).
  destruct (establish_balance (mounted routes) (new_frame main t) Hall)
    as (δ1 & Ht1 & Htr1 & Hse1).
  destruct (establish (leaves urljoin (mounted routes)) (new_frame main t))
    as [[[]|e] f1]; cbn [fst snd] in *; [|done].
  rewrite summary_spec. cbn [snd trace with_trace with_app].
  rewrite Ht1. cbn [new_frame trace].
  eexists. split; [rewrite <- !app_assoc; reflexivity|].
  destruct (closing_all_calls (rev (mounted routes)) exc) as (Htr & Hsr).
  destruct (records_only _ (summary_records_only (successful_servers f1)
                              (failed_servers f1))) as (Hstr & Hssr).
  repeat match goal with
  | |- context [transport_releases (?x ++ ?y)] =>
      destruct (releases_app x y) as [-> _]
  | |- context [session_releases (?x ++ ?y)] =>
      destruct (releases_app x y) as [_ ->]
  end.
  rewrite Htr, Hsr, Hstr, Hssr, <- Htr1, <- Hse1.
  cbn [Datatypes.app]. rewrite connections_rev.
  split; apply Permutation_app_head; symmetry; apply Permutation_rev.
Qed.

End balance.

(** * The further properties on the samples *)

(** X2 on the second sample, whose handshake fails: session and
    transport are closed. *)
Lemma failed_establishment_releases_witness :
  ∃ δ, trace (sub_start (read_locals (state sample_second))
                (new_frame sample_second [])).2
       = trace (new_frame sample_second []) ++ δ
    ∧ release_calls δ
      = match select_client (read_locals (state sample_second)) with
        | Ok _ =>
            (if returns (transport_enter
                           (peer (app (new_frame sample_second []))))
                && returns (session_enter
                              (peer (app (new_frame sample_second []))))
             then [SessionExit] else [])
            ++ (if returns (transport_enter
                              (peer (app (new_frame sample_second []))))
                then [TransportExit] else [])
        | Raise _ => []
        end.
Proof.
  apply (failed_establishment_releases (read_locals (state sample_second))
           (new_frame sample_second [])).
  intros p H. vm_compute in H. discriminate H.
Defined.


(** X4 on the backend that reports the name [time] for the entry
    [clock]. *)
Lemma failure_after_rename_witness :
  let res := attempt (sample_renamed,
                      lifespan_context sample_urljoin sample_renamed [])
               (new_frame sample_main []) in
  res.1 = Ok tt
  ∧ failed_servers res.2
    = failed_servers (new_frame sample_main []) ++ [title sample_renamed]
  ∧ Log ERROR (MFailedConnect "time" (McpError "Method not found"))
    ∈ trace res.2
  ∧ Log ERROR (MFailedEstablish (title sample_renamed)) ∈ trace res.2.
Proof.
  apply (failure_after_rename sample_urljoin sample_renamed
           (new_frame sample_main []) (stdio_client "uvx" [])
           {| serverInfo := Some {| si_name := "time"; si_version := "2.1" |};
              instructions := None |}
           {| si_name := "time"; si_version := "2.1" |}
           (McpError "Method not found")); reflexivity.
Defined.


(** X7 on an entry with a command and a streamable HTTP URL. *)
Lemma streamable_entry_transport_witness :
  ∃ url,
    select_client (read_locals (sub_app_state None sample_streamable_cfg))
    = Ok (streamablehttp_client url)
    ∧ endswith_slash url = true
    ∧ (url = default "" (cfg_url sample_streamable_cfg)
       ∨ url = default "" (cfg_url sample_streamable_cfg) +:+ "/"
         ∧ endswith_slash (default "" (cfg_url sample_streamable_cfg))
           = false).
Proof.
  apply (streamable_entry_transport None sample_streamable_cfg); reflexivity.
Defined.

(** X8 on an entry with a command only. *)
Lemma stdio_entry_transport_witness :
  select_client (read_locals (sub_app_state None (sample_cfg "uvx")))
  = Ok (stdio_client "uvx" (default [] (cfg_args (sample_cfg "uvx")))).
Proof.
  apply (stdio_entry_transport None (sample_cfg "uvx") "uvx"); reflexivity.
Defined.

(** X9 on an entry with nothing. *)
Lemma unconnected_entry_is_failed_witness :
  let f := new_frame sample_main [] in
  ∃ a path δ,
    mount_server sample_env "/" None ("blank", blank_cfg)
    = Mount path (FastAPIApp a)
    ∧ (attempt (a, lifespan_context sample_urljoin a []) f).1 = Ok tt
    ∧ trace (attempt (a, lifespan_context sample_urljoin a []) f).2
      = trace f ++ δ
    ∧ awaited δ = []
    ∧ successful_servers
        (attempt (a, lifespan_context sample_urljoin a []) f).2
      = successful_servers f
    ∧ failed_servers (attempt (a, lifespan_context sample_urljoin a []) f).2
      = failed_servers f ++ [("blank", blank_cfg).1]
    ∧ length (stack (attempt (a, lifespan_context sample_urljoin a []) f).2)
      = S (length (stack f)).
Proof.
  apply (unconnected_entry_is_failed sample_urljoin sample_env "/" None
           ("blank", blank_cfg) (new_frame sample_main [])); reflexivity.
Defined.

(** X10 on an entry with a command. *)
Lemma entry_transport_exists_witness :
  ∃ c, select_client (read_locals (sub_app_state None (sample_cfg "uvx")))
       = Ok c.
Proof.
  apply (entry_transport_exists None (sample_cfg "uvx")); reflexivity.
Defined.

(** X11 with a connection timeout of 30: the read timeout is 10. *)
Lemma single_sse_ignores_timeout_witness :
  ∃ m, (configure sample_env
          (single_kwargs (Some "sse") ["http://localhost:8001/sse"])
          initial).1 = Ok (m, [])
    ∧ is_main_app (read_locals (state m)) = false
    ∧ select_client (read_locals (state m))
      = Ok (sse_client "http://localhost:8001/sse" 10).
Proof.
  apply (single_sse_ignores_timeout sample_env
           (single_kwargs (Some "sse") ["http://localhost:8001/sse"])
           initial "http://localhost:8001/sse" []); reflexivity.
Defined.

(** X12 on a URL without a final slash. *)
Lemma single_streamable_url_unchanged_witness :
  ∃ m, (configure sample_env
          (single_kwargs (Some "streamable_http")
             ["http://localhost:8002/mcp"])
          initial).1 = Ok (m, [])
    ∧ is_main_app (read_locals (state m)) = false
    ∧ select_client (read_locals (state m))
      = Ok (streamablehttp_client "http://localhost:8002/mcp").
Proof.
  apply (single_streamable_url_unchanged sample_env
           (single_kwargs (Some "streamable_http")
              ["http://localhost:8002/mcp"])
           initial "http://localhost:8002/mcp" []).
  - right. reflexivity.
  - reflexivity.
Defined.

(** X13 on a server type that [run] does not know. *)
Lemma single_stdio_transport_witness :
  ∃ m, (configure sample_env
          (single_kwargs (Some "http") ["uvx"; "mcp-server-time"])
          initial).1 = Ok (m, [])
    ∧ is_main_app (read_locals (state m)) = negb (truthy "uvx")
    ∧ (truthy "uvx" = true →
       select_client (read_locals (state m))
       = Ok (stdio_client "uvx" ["mcp-server-time"])).
Proof.
  apply (single_stdio_transport sample_env
           (single_kwargs (Some "http") ["uvx"; "mcp-server-time"])
           initial "uvx" ["mcp-server-time"]); reflexivity.
Defined.

(** X14 with a configuration path given as well, for a file with
    servers and for one that cannot be read. *)
Lemma command_precedes_config_witness :
  configure unreadable_env (single_kwargs None ["uvx"; "mcp-server-time"]) initial
  = configure sample_env (single_kwargs None ["uvx"; "mcp-server-time"])
      initial
  ∧ ∃ m msg,
      (configure sample_env (single_kwargs None ["uvx"; "mcp-server-time"])
         initial).1 = Ok (m, [])
      ∧ ptrace (configure sample_env
                  (single_kwargs None ["uvx"; "mcp-server-time"]) initial).2
        = ptrace initial ++ [Log INFO msg].
Proof.
  apply (command_precedes_config sample_env unreadable_env
           (single_kwargs None ["uvx"; "mcp-server-time"]) initial
           "uvx" ["mcp-server-time"]); reflexivity.
Defined.

(** X15 on the sample configuration. *)
Lemma config_mounts_every_entry_witness :
  ∃ m routes,
    (configure sample_env sample_kwargs initial).1 = Ok (m, routes)
    ∧ is_main_app (read_locals (state m)) = true
    ∧ title <$> mounted routes
      = [("first", sample_cfg "uvx"); ("second", sample_cfg "nope");
         ("third", sample_cfg "npx")].*1
    ∧ Forall (λ a, connection_timeout (state a)
                   = Some (kw_connection_timeout sample_kwargs))
        (mounted routes)
    ∧ routes
      = mount_server sample_env (or_default (kw_path_prefix sample_kwargs) "/")
          (kw_connection_timeout sample_kwargs)
        <$> [("first", sample_cfg "uvx"); ("second", sample_cfg "nope");
             ("third", sample_cfg "npx")].
Proof.
  apply (config_mounts_every_entry sample_env sample_kwargs initial
           "config.json"
           {| mcpServers :=
                Some [("first", sample_cfg "uvx"); ("second", sample_cfg "nope");
                      ("third", sample_cfg "npx")] |}).
  - reflexivity.
  - left. reflexivity.
  - reflexivity.
  - reflexivity.
  - reflexivity.
  - reflexivity.
  - discriminate.
Defined.

(** X17 on the sample configuration, with nothing in flight. *)
Lemma teardown_outcome_witness :
  let started := (main_start sample_urljoin (read_locals (state sample_main))
                    (sub_lifespans sample_urljoin sample_routes)
                    (new_frame sample_main [])).2 in
  let r := main_resume None started in
  r.1 = match (closing_all (rev (mounted sample_routes)) None).2 with
        | Some e => Raise e
        | None => Ok tt
        end
  ∧ trace r.2
    = trace started ++ (closing_all (rev (mounted sample_routes)) None).1
  ∧ stack r.2 = [].
Proof.
  apply (teardown_outcome sample_urljoin _ sample_main [] sample_routes None).
  repeat constructor.
Defined.

(** X18 on the sample configuration, with a cancellation in
    flight. *)
Lemma quiet_teardown_witness :
  let started := (main_start sample_urljoin (read_locals (state sample_main))
                    (sub_lifespans sample_urljoin sample_routes)
                    (new_frame sample_main [])).2 in
  let r := main_resume (Some CancelledError) started in
  r.1 = Raise CancelledError
  ∧ trace r.2
    = trace started
      ++ release_records (rev (connections (mounted sample_routes))).
Proof.
  apply (quiet_teardown sample_urljoin _ sample_main [] sample_routes
           (Some CancelledError)).
  - repeat constructor.
  - repeat constructor.
  - intros e H. injection H as <-. reflexivity.
Defined.

(** X19 on the sample configuration: the third backend, connected
    last, swallows the exception. *)
Lemma teardown_absorbs_exception_witness :
  let started := (main_start sample_urljoin (read_locals (state sample_main))
                    (sub_lifespans sample_urljoin sample_routes)
                    (new_frame sample_main [])).2 in
  let r := main_resume (Some (RuntimeError "lifespan")) started in
  r.1 = Ok tt
  ∧ trace r.2
    = trace started ++ exits (stdio_client "npx" [])
      ++ [Log ERROR (MFailedConnect (connected_title sample_third)
                       (RuntimeError "lifespan"))]
      ++ release_records (rev (connections [sample_first; sample_second])).
Proof.
  apply (teardown_absorbs_exception sample_urljoin _ sample_main []
           sample_routes [sample_first; sample_second] sample_third []
           (stdio_client "npx" []) (RuntimeError "lifespan")).
  - reflexivity.
  - repeat constructor.
  - repeat constructor.
  - reflexivity.
  - constructor.
  - reflexivity.
Defined.

(** X20 on a gateway whose second backend is cancelled during its
    handshake. *)
Lemma interrupted_establishment_witness :
  let r := main_start sample_urljoin (read_locals (state sample_main))
             (sub_lifespans sample_urljoin interrupted_routes)
             (new_frame sample_main []) in
  r.1 = Raise CancelledError
  ∧ is_Exception CancelledError = false
  ∧ ∃ blocks δ,
      trace r.2
      = [] ++ concat blocks
        ++ Log INFO (MInitiating (title sample_cancelled)) :: δ
        ++ release_records (rev (connections [sample_first]))
      ∧ Forall2 block_of [sample_first] blocks
      ∧ Forall (λ ev, is_await ev = true) δ.
Proof.
  apply (interrupted_establishment sample_urljoin _ sample_main []
           interrupted_routes [sample_first] sample_cancelled [sample_third]
           CancelledError).
  - reflexivity.
  - repeat constructor.
  - repeat constructor.
  - reflexivity.
  - reflexivity.
Defined.

(** X23 on the sample configuration. *)
Lemma report_covers_mounts_witness :
  let r := main_start sample_urljoin (read_locals (state sample_main))
             (sub_lifespans sample_urljoin sample_routes)
             (new_frame sample_main []) in
  successful_servers r.2 ++ failed_servers r.2
  ≡ₚ title <$> mounted sample_routes.
Proof.
  apply (report_covers_mounts sample_urljoin _ sample_main [] sample_routes).
  repeat constructor.
Defined.

(** X24 on the second sample as the application of a single-server
    gateway. *)
Lemma failed_lifespan_does_not_yield_witness :
  (lifespan_context sample_urljoin sample_second [] []).1
  = Raise (RuntimeError "generator didn't yield")
  ∧ ∃ name e δ,
      (lifespan_context sample_urljoin sample_second [] []).2 = [] ++ δ
      ∧ last δ = Some (Log ERROR (MFailedConnect name e)).
Proof.
  apply (failed_lifespan_does_not_yield sample_urljoin sample_second [] []);
    reflexivity.
Defined.

(** X25 on the sample configuration, with a cancellation in
    flight at the teardown. *)
Lemma no_connection_left_open_witness :
  let started := (main_start sample_urljoin (read_locals (state sample_main))
                    (sub_lifespans sample_urljoin sample_routes)
                    (new_frame sample_main [])).2 in
  let r := main_resume (Some CancelledError) started in
  ∃ δ, trace r.2 = [] ++ δ
    ∧ transport_releases δ ≡ₚ omap opened_transport (mounted sample_routes)
    ∧ session_releases δ ≡ₚ omap opened_session (mounted sample_routes).
Proof.
  apply (no_connection_left_open sample_urljoin _ sample_main []
           sample_routes (Some CancelledError)).
  repeat constructor.
Defined.
